(** * transcribe_to_gdocs.py: record, transcribe, summarise, upload

    A shallow embedding of [src/transcribe_to_gdocs.py].  The script is a
    single-threaded sequence of calls to external collaborators ([rec],
    [whisper], the OpenAI chat endpoint, the Google Docs API) wrapped in
    Python exception handling.  We model it with a small state and
    exception monad [M] over a [world] holding the local file system, the
    printed output and logs of the remote calls and of [time.sleep].  The
    behaviour of every collaborator is a field of an environment record
    [env]; the theorems quantify over all of them. *)

From Stdlib Require Import ZArith String Ascii List Lia.
From stdpp Require Import base gmap strings.
Import ListNotations.

Open Scope Z_scope.

(** ** Python values *)

(** Decoded text (file contents, transcripts, summaries): a list of
    Unicode code points. *)
Definition text := list Z.

(** The exceptions the script raises or catches.  [RateLimitError] and
    [APIError] are the two kinds of [openai.OpenAIError] (rate limiting and
    every other API error); [KeyboardInterrupt] is the only one that is not
    an [Exception] subclass. *)
Inductive exn :=
| FileNotFoundError (msg : string)
| KeyboardInterrupt
| RateLimitError
| APIError
| CalledProcessError (returncode : Z)
| HttpError
| ValueError (msg : string)
| OtherException (msg : string).

(** [isinstance(e, Exception)] *)
Definition is_Exception (e : exn) : bool :=
  match e with KeyboardInterrupt => false | _ => true end.

(** [isinstance(e, OpenAIError)] *)
Definition is_OpenAIError (e : exn) : bool :=
  match e with RateLimitError | APIError => true | _ => false end.

(** What the script prints.  Fixed messages are kept as strings; messages
    that interpolate a value carry that value. *)
Inductive event :=
| Say (s : string)
| SayExn (prefix : string) (e : exn)
| SayRetry (wait_time : Z)
| SayTrace (e : exn)
| SayCleaned (f : string)
| SayWarnRemove (f : string)
| SaySuccess (url : string)
| SayKept (f : string)
| CredentialsInstructions
| OpenAIKeyInstructions.

(** File-system operations that change a file's existence. *)
Inductive fs_op := FsWrite (f : string) | FsRemove (f : string).

(** Requests of a Google Docs [batchUpdate]. *)
Inductive doc_request := InsertText (index : Z) (t : text).

(** Calls to the Google Docs API. *)
Inductive doc_call :=
| DocCreate (title : string)
| DocBatchUpdate (documentId : string) (requests : list doc_request).

(** ** The world and the monad *)

Record world := mkWorld {
  fs : gmap string text;               (* local files and their contents *)
  fs_log : list fs_op;                 (* writes and removals, in order *)
  out : list event;                    (* printed output, in order *)
  llm_log : list (text * text);        (* chat completions sent: (transcript, api_key) *)
  sleeps : list Z;                     (* arguments of time.sleep, in order *)
  doc_log : list doc_call              (* Google Docs calls, in order *)
}.

Inductive result (A : Type) := Ok (a : A) | Raise (e : exn).
Arguments Ok {A} a.
Arguments Raise {A} e.

Definition M (A : Type) := world -> result A * world.

Definition ret {A} (a : A) : M A := fun w => (Ok a, w).
Definition raise {A} (e : exn) : M A := fun w => (Raise e, w).
Definition bind {A B} (m : M A) (k : A -> M B) : M B :=
  fun w => match m w with
           | (Ok a, w') => k a w'
           | (Raise e, w') => (Raise e, w')
           end.

Notation "'do' x <- c1 ; c2" := (bind c1 (fun x => c2))
  (at level 100, x name, c1 at next level, c2 at level 200, right associativity).
Notation "c1 ;; c2" := (bind c1 (fun _ : unit => c2))
  (at level 100, c2 at level 200, right associativity).

(** [try: m except: h]: [h] receives every exception and re-raises the
    ones its [except] clauses do not match. *)
Definition try_except {A} (m : M A) (h : exn -> M A) : M A :=
  fun w => match m w with
           | (Ok a, w') => (Ok a, w')
           | (Raise e, w') => h e w'
           end.

(** [try: m finally: f] *)
Definition try_finally {A} (m : M A) (f : M unit) : M A :=
  fun w => match m w with
           | (r, w') =>
               match f w' with
               | (Ok _, w'') => (r, w'')
               | (Raise e, w'') => (Raise e, w'')
               end
           end.

Definition print (ev : event) : M unit :=
  fun w => (Ok tt, {| fs := fs w; fs_log := fs_log w; out := out w ++ [ev];
                      llm_log := llm_log w; sleeps := sleeps w;
                      doc_log := doc_log w |}).

Definition exists_file (f : string) : M bool :=
  fun w => (Ok (bool_decide (is_Some (fs w !! f))), w).

(** Universal newlines of a text-mode read: CR LF and a lone CR both
    become LF. *)
Fixpoint translate_newlines (s : text) : text :=
  match s with
  | [] => []
  | c :: r =>
      if c =? 13 then
        match r with
        | d :: r' => if d =? 10 then 10 :: translate_newlines r' else 10 :: translate_newlines r
        | [] => [10]
        end
      else c :: translate_newlines r
  end.

(** [with open(f, 'r') as h: h.read()] on an existing file: the text comes
    back with its newlines translated. *)
Definition read_file (f : string) : M (option text) :=
  fun w => (Ok (option_map translate_newlines (fs w !! f)), w).

(** [with open(f, 'w') as h: h.write(t)] that succeeds. *)
Definition put_file (f : string) (t : text) : M unit :=
  fun w => (Ok tt, {| fs := <[f := t]> (fs w); fs_log := fs_log w ++ [FsWrite f];
                      out := out w; llm_log := llm_log w; sleeps := sleeps w;
                      doc_log := doc_log w |}).

(** [os.remove(f)] that succeeds. *)
Definition remove_file (f : string) : M unit :=
  fun w => (Ok tt, {| fs := delete f (fs w); fs_log := fs_log w ++ [FsRemove f];
                      out := out w; llm_log := llm_log w; sleeps := sleeps w;
                      doc_log := doc_log w |}).

(** [time.sleep(t)]: CPython raises [ValueError] on a negative length. *)
Definition sleep (t : Z) : M unit :=
  fun w => if t <? 0 then (Raise (ValueError "sleep length must be non-negative"), w)
           else (Ok tt, {| fs := fs w; fs_log := fs_log w; out := out w;
                           llm_log := llm_log w; sleeps := sleeps w ++ [t];
                           doc_log := doc_log w |}).

(** One chat completion request; [reply n] is the collaborator's answer to
    the [n]-th request of the process (a completion or an exception). *)
Definition chat_create (reply : nat -> exn + text) (t key : text) : M text :=
  fun w =>
    let w' := {| fs := fs w; fs_log := fs_log w; out := out w;
                 llm_log := llm_log w ++ [(t, key)]; sleeps := sleeps w;
                 doc_log := doc_log w |} in
    match reply (length (llm_log w)) with
    | inl e => (Raise e, w')
    | inr c => (Ok c, w')
    end.

Definition doc_call_api {A} (c : doc_call) (answer : exn + A) : M A :=
  fun w =>
    let w' := {| fs := fs w; fs_log := fs_log w; out := out w;
                 llm_log := llm_log w; sleeps := sleeps w;
                 doc_log := doc_log w ++ [c] |} in
    match answer with
    | inl e => (Raise e, w')
    | inr a => (Ok a, w')
    end.

(** ** [summarize_text] (lines 144-181)

    [max_retries] is a Python int that is only compared with [0] and
    decremented, so a value [m <= 0] behaves as [0]; the embedding takes
    [Z.to_nat max_retries] as the structural recursion argument and
    computes the wait time from it exactly as line 167 does. *)
Fixpoint summarize_go (reply : nat -> exn + text) (t key : text)
         (max_retries : nat) (backoff_factor : Z) : M text :=
  try_except (chat_create reply t key)
    (fun e =>
       match e with
       | RateLimitError =>
           match max_retries with
           | S r =>
               let wait_time := backoff_factor * (6 - Z.of_nat max_retries) in
               print (SayRetry wait_time) ;;
               sleep wait_time ;;
               summarize_go reply t key r backoff_factor
           | O =>
               print (Say "Max retries exceeded. Please check your OpenAI quota and billing details.") ;;
               raise e
           end
       | APIError =>
           print (SayExn "An OpenAI API error occurred: " e) ;; raise e
       | KeyboardInterrupt => raise e
       | _ =>
           print (SayExn "An unexpected error occurred: " e) ;; raise e
       end).

Definition summarize_text (reply : nat -> exn + text) (t key : text)
           (max_retries backoff_factor : Z) : M text :=
  summarize_go reply t key (Z.to_nat max_retries) backoff_factor.

(** ** [get_openai_api_key] (lines 65-79) *)

(** [str.isspace] on one code point (CPython's [Py_UNICODE_ISSPACE]). *)
Definition py_isspace (c : Z) : bool :=
  ((9 <=? c) && (c <=? 13)) || ((28 <=? c) && (c <=? 32)) || (c =? 133)
  || (c =? 160) || (c =? 5760) || ((8192 <=? c) && (c <=? 8202))
  || (c =? 8232) || (c =? 8233) || (c =? 8239) || (c =? 8287) || (c =? 12288).

Fixpoint lstrip (s : text) : text :=
  match s with
  | c :: s' => if py_isspace c then lstrip s' else s
  | [] => []
  end.

(** [str.strip()] *)
Definition py_strip (s : text) : text := rev (lstrip (rev (lstrip s))).

Definition get_openai_api_key (openai_key_path : string) : M text :=
  do ex <- exists_file openai_key_path;
  if negb ex then
    print OpenAIKeyInstructions ;;
    raise (FileNotFoundError ("OpenAI API key file not found: " +:+ openai_key_path))
  else
    try_except
      (do contents <- read_file openai_key_path;
       let api_key := py_strip (default [] contents) in
       match api_key with
       | [] => raise (ValueError "OpenAI API key file is empty.")
       | _ => ret api_key
       end)
      (fun e => if is_Exception e
                then print (SayExn "Error reading OpenAI API key: " e) ;; raise e
                else raise e).

(** ** Collaborators *)

(** The behaviour of everything outside the script: the clock, the command
    line, the subprocesses, the two remote APIs and the operating system's
    refusals.  An [option exn] field is the exception the corresponding call
    raises ([None]: it returns normally). *)
Record env := mkEnv {
  timestamp : string;                  (* datetime.now().strftime(...) *)
  language : option string;            (* --language *)
  openai_key_file : string;            (* --openai-key-file *)
  credentials : string;                (* --credentials *)
  rec_raises : option exn;             (* subprocess.run(['rec', ...]) *)
  rec_writes : bool;                   (* rec created the audio file *)
  whisper_raises : option exn;         (* subprocess.run(whisper_command) *)
  whisper_writes : option text;        (* whisper wrote <root>.txt with this *)
  llm_reply : nat -> exn + text;       (* n-th chat.completions.create *)
  token_valid : bool;                  (* token.json loads to valid creds *)
  oauth_flow : exn + text;             (* run_local_server: creds JSON *)
  docs_create : exn + string;          (* documents().create: documentId *)
  docs_batch : option exn;             (* documents().batchUpdate *)
  open_fails : string -> option exn;   (* open(f, 'w') refused *)
  remove_fails : string -> bool        (* os.remove(f) raises OSError *)
}.

(** [os.path.splitext(p)[0]] (posixpath): cut at the last ['.'] when it
    follows the last ['/'] and some character between them is not a dot. *)
Fixpoint rfind_go (c : ascii) (l : list ascii) (i : Z) (acc : Z) : Z :=
  match l with
  | [] => acc
  | x :: l' => rfind_go c l' (i + 1) (if Ascii.eqb x c then i else acc)
  end.

Definition rfind (c : ascii) (l : list ascii) : Z := rfind_go c l 0 (-1).

Definition splitext_root (p : string) : string :=
  let l := list_ascii_of_string p in
  let sepIndex := rfind "/"%char l in
  let dotIndex := rfind "."%char l in
  if sepIndex <? dotIndex then
    let between := skipn (Z.to_nat (sepIndex + 1)) (firstn (Z.to_nat dotIndex) l) in
    if existsb (fun c => negb (Ascii.eqb c "."%char)) between
    then string_of_list_ascii (firstn (Z.to_nat dotIndex) l)
    else p
  else p.

(** [needle in haystack] *)
Definition str_contains (needle haystack : string) : bool :=
  match String.index 0 needle haystack with Some _ => true | None => false end.

Section Script.

Variable E : env.

(** [with open(f, 'w') as h: h.write(t)] *)
Definition write_file (f : string) (t : text) : M unit :=
  match open_fails E f with
  | Some e => raise e
  | None => put_file f t
  end.

(** ** [record_and_transcribe] (lines 96-142) *)
Definition record_and_transcribe (filename : string) (lang : option string) : M text :=
  print (Say "Recording... Press Ctrl+C to stop") ;;
  try_except
    ((if rec_writes E then put_file filename [] else ret tt) ;;
     match rec_raises E with Some e => raise e | None => ret tt end)
    (fun e => match e with
              | KeyboardInterrupt => print (Say "Recording stopped")
              | FileNotFoundError _ =>
                  print (Say "Error: 'rec' command not found. Please install 'sox' to enable recording.") ;;
                  raise e
              | CalledProcessError _ => print (SayExn "Error during recording: " e) ;; raise e
              | _ => raise e
              end) ;;
  print (Say "Transcribing with Whisper...") ;;
  try_except
    (match lang with
     | Some l => print (Say ("Specified language: " +:+ l))
     | None => print (Say "No language specified. Whisper will auto-detect the language based on the first part of the audio.")
     end ;;
     let transcription_file := splitext_root filename +:+ ".txt" in
     (match whisper_writes E with Some t => put_file transcription_file t | None => ret tt end) ;;
     (match whisper_raises E with Some e => raise e | None => ret tt end) ;;
     print (Say ("Looking for transcription in: " +:+ transcription_file)) ;;
     do ex <- exists_file transcription_file;
     if ex then
       do contents <- read_file transcription_file;
       ret (default [] contents)
     else
       print (Say "Available txt files") ;;
       raise (FileNotFoundError ("Could not find transcription file: " +:+ transcription_file)))
    (fun e => match e with
              | CalledProcessError _ => print (SayExn "Error running Whisper: " e) ;; raise e
              | _ => raise e
              end).

(** ** [summarize_text] with the script's collaborator *)
Definition summarize (t key : text) (max_retries backoff_factor : Z) : M text :=
  summarize_text (llm_reply E) t key max_retries backoff_factor.

(** ** [get_google_creds] (lines 46-63) *)
Definition get_google_creds (credentials_path : string) : M unit :=
  do ex <- exists_file credentials_path;
  if negb ex then
    print CredentialsInstructions ;;
    raise (FileNotFoundError ("Credentials file not found: " +:+ credentials_path))
  else
    do has_token <- exists_file "token.json";
    if has_token && token_valid E then ret tt
    else
      match oauth_flow E with
      | inl e => raise e
      | inr creds_json => write_file "token.json" creds_json
      end.

(** ** [create_doc] (lines 81-94) *)
Definition create_doc (title : string) (content : text) : M (option string) :=
  try_except
    (do doc_id <- doc_call_api (DocCreate title) (docs_create E);
     do _ <- doc_call_api (DocBatchUpdate doc_id [InsertText 1 content])
               (match docs_batch E with Some e => inl e | None => inr tt end);
     ret (Some ("https://docs.google.com/document/d/" +:+ doc_id +:+ "/edit")))
    (fun e => match e with
              | HttpError =>
                  print (SayExn "An error occurred while creating the document: " e) ;;
                  ret None
              | _ => raise e
              end).

(** ** [cleanup_files] (lines 183-191) *)
Fixpoint cleanup_files (filenames : list string) : M unit :=
  match filenames with
  | [] => ret tt
  | f :: fs' =>
      (if String.eqb f "" then ret tt
       else
         do ex <- exists_file f;
         if ex then
           if remove_fails E f then print (SayWarnRemove f)
           else remove_file f ;; print (SayCleaned f)
         else ret tt) ;;
      cleanup_files fs'
  end.

(** ** [main] (lines 193-268) *)
Definition recording_file : string := "recording_" +:+ timestamp E +:+ ".wav".
Definition transcription_file : string := "transcription_" +:+ timestamp E +:+ ".txt".
Definition summary_file : string := "summary_" +:+ timestamp E +:+ ".txt".
Definition side_output_file : string := splitext_root recording_file +:+ ".txt".

Definition main_body : M unit :=
  print (Say "=== Starting Recording and Transcription ===") ;;
  do transcription <- record_and_transcribe recording_file (language E);
  write_file transcription_file transcription ;;
  print (Say ("Local transcription backup saved to: " +:+ transcription_file)) ;;
  print (Say "=== Generating Summary ===") ;;
  do openai_api_key <- get_openai_api_key (openai_key_file E);
  do summary <- summarize transcription openai_api_key 5 2;
  write_file summary_file summary ;;
  print (Say ("Local summary backup saved to: " +:+ summary_file)) ;;
  print (Say "=== Uploading Summary to Google Docs ===") ;;
  get_google_creds (credentials E) ;;
  let doc_title := "Summary " +:+ timestamp E in
  print (Say ("Creating Google Doc: " +:+ doc_title)) ;;
  do doc_url <- create_doc doc_title summary;
  match doc_url with
  | Some u => print (SaySuccess u)
  | None => ret tt
  end.

(** The [except] clauses of lines 240-259, in order. *)
Definition main_except (e : exn) : M unit :=
  match e with
  | FileNotFoundError msg =>
      if str_contains "Credentials file not found" msg then ret tt
      else if str_contains "OpenAI API key file not found" msg then ret tt
      else print (SayExn "Error: " e)
  | KeyboardInterrupt => print (Say "Process interrupted by user")
  | RateLimitError =>
      print (Say "Error: Rate limit exceeded. Please check your OpenAI quota and billing details.")
  | APIError => print (SayExn "An OpenAI API error occurred: " e)
  | _ => print (SayExn "An error occurred: " e) ;; print (SayTrace e)
  end.

(** The [finally] clause of lines 260-268. *)
Definition main_finally : M unit :=
  print (Say "=== Cleaning Up ===") ;;
  cleanup_files [recording_file; side_output_file] ;;
  print (SayKept transcription_file) ;;
  print (SayKept summary_file).

Definition main : M unit := try_finally (try_except main_body main_except) main_finally.

End Script.

(** ** Stubs used in the statements *)

(** A chat collaborator that raises [RateLimitError] on its first [N]
    requests and then answers [completion]. *)
Definition fail_then (N : nat) (completion : text) : nat -> exn + text :=
  fun n => if (n <? N)%nat then inl RateLimitError else inr completion.

Definition empty_world : world :=
  {| fs := ∅; fs_log := []; out := []; llm_log := []; sleeps := []; doc_log := [] |}.

(** A concrete run: recording stopped with Ctrl+C, whisper transcribes
    "Hello", every later collaborator answers, except that the chat
    collaborator is [reply] and [os.remove] refuses the files in
    [refused]. *)
Definition demo_env (reply : nat -> exn + text) (refused : string -> bool) : env :=
  {| timestamp := "2024-05-01_10-00-00"; language := None;
     openai_key_file := "openai_key.txt"; credentials := "credentials.json";
     rec_raises := Some KeyboardInterrupt; rec_writes := true;
     whisper_raises := None; whisper_writes := Some [72; 101; 108; 108; 111];
     llm_reply := reply; token_valid := true; oauth_flow := inr [];
     docs_create := inr "doc1"; docs_batch := None;
     open_fails := fun _ => None; remove_fails := refused |}.

(** A working directory holding the OpenAI key file (contents [key]) and
    the Google credentials file. *)
Definition demo_world (key : text) : world :=
  {| fs := <["openai_key.txt" := key]> (<["credentials.json" := []]> ∅);
     fs_log := []; out := []; llm_log := []; sleeps := []; doc_log := [] |}.

Definition is_trace (ev : event) : bool :=
  match ev with SayTrace _ => true | _ => false end.

(** ** File-system invariants

    [preserves P m]: running [m] from a world satisfying [P] ends in a world
    satisfying [P], whether [m] returns or raises.  The invariants we use
    only look at the files and the log of writes and removals. *)
Definition preserves {A} (P : world -> Prop) (m : M A) : Prop :=
  forall w, P w -> P (snd (m w)).

Definition on_files (Q : gmap string text -> list fs_op -> Prop) (w : world) : Prop :=
  Q (fs w) (fs_log w).

Definition write_stable (Q : gmap string text -> list fs_op -> Prop) (f : string) : Prop :=
  forall m log t, Q m log -> Q (<[f := t]> m) (log ++ [FsWrite f]).

Definition remove_stable (Q : gmap string text -> list fs_op -> Prop) (f : string) : Prop :=
  forall m log, Q m log -> Q (delete f m) (log ++ [FsRemove f]).

(** [f] exists exactly when it has been written, and was never removed. *)
Definition durable (f : string) (m : gmap string text) (log : list fs_op) : Prop :=
  (is_Some (m !! f) <-> In (FsWrite f) log) /\ ~ In (FsRemove f) log.

Definition holds_at (f : string) (v : option text) (m : gmap string text) (_ : list fs_op) : Prop :=
  m !! f = v.

Definition logged (op : fs_op) (_ : gmap string text) (log : list fs_op) : Prop :=
  In op log.

(** The summary file is written only after the transcript file. *)
Definition written_after (t s : string) (_ : gmap string text) (log : list fs_op) : Prop :=
  In (FsWrite s) log -> In (FsWrite t) log.

(** ** Invariants over the files and the remote logs

    [on_world Q]: [Q] holds of the files, the chat requests, the Google Docs
    calls and the sleeps.  [ins_ok], [del_ok], [chat_ok], [call_ok] and
    [sleep_ok] say that [Q] survives one write, removal, chat request,
    Docs call or sleep. *)
Definition on_world (Q : gmap string text -> list (text * text) -> list doc_call -> list Z -> Prop)
  (w : world) : Prop := Q (fs w) (llm_log w) (doc_log w) (sleeps w).

Definition ins_ok (Q : gmap string text -> list (text * text) -> list doc_call -> list Z -> Prop)
  (f : string) : Prop :=
  forall m l d z t, Q m l d z -> Q (<[f := t]> m) l d z.

Definition del_ok (Q : gmap string text -> list (text * text) -> list doc_call -> list Z -> Prop)
  (f : string) : Prop :=
  forall m l d z, Q m l d z -> Q (delete f m) l d z.

Definition chat_ok (Q : gmap string text -> list (text * text) -> list doc_call -> list Z -> Prop)
  (x : text * text) : Prop :=
  forall m l d z, Q m l d z -> Q m (l ++ [x]) d z.

Definition call_ok (Q : gmap string text -> list (text * text) -> list doc_call -> list Z -> Prop)
  (c : doc_call) : Prop :=
  forall m l d z, Q m l d z -> Q m l (d ++ [c]) z.

Definition sleep_ok (Q : gmap string text -> list (text * text) -> list doc_call -> list Z -> Prop)
  (t : Z) : Prop :=
  forall m l d z, Q m l d z -> Q m l d (z ++ [t]).

(** [triple P m Q R]: from a world satisfying [P], [m] either returns [a]
    in a world satisfying [Q a] or raises in a world satisfying [R]. *)
Definition triple {A} (P : world -> Prop) (m : M A) (Q : A -> world -> Prop) (R : world -> Prop) : Prop :=
  forall w, P w -> match m w with (Ok a, w') => Q a w' | (Raise _, w') => R w' end.

(** Every chat request sent the text held by the file [t], and once a
    Google Docs call was made the file [s] exists and every [batchUpdate]
    inserted its text. *)
Definition sent_as_saved (t s : string) (m : gmap string text) (l : list (text * text))
  (d : list doc_call) (_ : list Z) : Prop :=
  Forall (fun x => m !! t = Some (fst x)) l /\
  (d <> [] -> exists v, m !! s = Some v /\
     Forall (fun c => forall id reqs, c = DocBatchUpdate id reqs -> reqs = [InsertText 1 v]) d).

(** The phases of a run for [sent_as_saved]: before the transcript is
    saved, between the two backups, and after the summary is saved. *)
Definition no_remote (m : gmap string text) (l : list (text * text)) (d : list doc_call)
  (_ : list Z) : Prop :=
  l = [] /\ d = [].

Definition sent_transcript (t : string) (tr : text) (m : gmap string text) (l : list (text * text))
  (d : list doc_call) (_ : list Z) : Prop :=
  m !! t = Some tr /\ Forall (fun x => fst x = tr) l /\ d = [].

Definition sent_summary (t s : string) (tr v : text) (m : gmap string text) (l : list (text * text))
  (d : list doc_call) (_ : list Z) : Prop :=
  m !! t = Some tr /\ Forall (fun x => fst x = tr) l /\ m !! s = Some v /\
  Forall (fun c => forall id reqs, c = DocBatchUpdate id reqs -> reqs = [InsertText 1 v]) d.

(** Chat requests and sleeps: unchanged since the start ([budget_pre]), or
    at most [k + 1] requests and the sleeps [2, 4, ..., 2k] for a [k <= 5]
    ([budget_post]). *)
Definition budget_pre (L0 : list (text * text)) (S0 : list Z) (_ : gmap string text)
  (l : list (text * text)) (_ : list doc_call) (z : list Z) : Prop :=
  l = L0 /\ z = S0.

Definition budget_post (L0 : list (text * text)) (S0 : list Z) (_ : gmap string text)
  (l : list (text * text)) (_ : list doc_call) (z : list Z) : Prop :=
  exists k, (k <= 5)%nat /\ (length l <= length L0 + S k)%nat /\
    z = S0 ++ map (fun i => 2 * Z.of_nat (S i)) (seq 0 k).

(** The key file [key] is absent, no chat request or Docs call was added
    and the file [s] is as it was. *)
Definition key_absent (key s : string) (L0 : list (text * text)) (D0 : list doc_call)
  (v0 : option text) (m : gmap string text) (l : list (text * text)) (d : list doc_call)
  (_ : list Z) : Prop :=
  m !! key = None /\ l = L0 /\ d = D0 /\ m !! s = v0.

(** ** Retry behaviour of [summarize_text] *)

Section Summarize.

Lemma fail_then_lt (N : nat) (c : text) n :
  (n < N)%nat -> fail_then N c n = inl RateLimitError.
Proof. intros H; unfold fail_then; apply Nat.ltb_lt in H; now rewrite H. Qed.

Lemma fail_then_ge (N : nat) (c : text) n :
  (N <= n)%nat -> fail_then N c n = inr c.
Proof. intros H; unfold fail_then; apply Nat.ltb_ge in H; now rewrite H. Qed.

Lemma summarize_go_fail_then (N : nat) (c t key : text) (b : Z) (r : nat) :
  forall w, 0 <= b -> (r <= 6)%nat -> (length (llm_log w) <= N)%nat ->
  fst (summarize_go (fail_then N c) t key r b w) =
    if (N - length (llm_log w) <=? r)%nat then Ok c else Raise RateLimitError.
Proof.
  induction r as [|r IH]; intros w Hb Hr Hn; simpl; unfold try_except, chat_create.
  - destruct (Nat.ltb_spec (length (llm_log w)) N) as [Hlt|Hge].
    + rewrite fail_then_lt by exact Hlt. simpl.
      destruct (Nat.leb_spec (N - length (llm_log w)) 0); [lia|reflexivity].
    + rewrite fail_then_ge by exact Hge.
      replace (N - length (llm_log w))%nat with 0%nat by lia. reflexivity.
  - destruct (Nat.ltb_spec (length (llm_log w)) N) as [Hlt|Hge].
    + rewrite fail_then_lt by exact Hlt. unfold bind, print, sleep; simpl.
      destruct (Z.ltb_spec (b * (6 - Z.of_nat (S r))) 0) as [Hneg|_]; [nia|].
      rewrite IH; simpl; [| lia | lia | rewrite length_app; simpl; lia].
      rewrite length_app; simpl.
      destruct (Nat.leb_spec (N - (length (llm_log w) + 1)) r);
      destruct (Nat.leb_spec (N - length (llm_log w)) (S r)); reflexivity || lia.
    + rewrite fail_then_ge by exact Hge.
      replace (N - length (llm_log w))%nat with 0%nat by lia. reflexivity.
Qed.

(** The delays slept before a success after [N] rate limits. *)
Lemma summarize_go_delays (N : nat) (c t key : text) (b : Z) (r : nat) :
  forall w, 0 <= b -> (r <= 6)%nat -> (length (llm_log w) <= N)%nat ->
  (N - length (llm_log w) <= r)%nat ->
  sleeps (snd (summarize_go (fail_then N c) t key r b w)) =
    sleeps w ++ map (fun k => b * (6 - Z.of_nat r + Z.of_nat k))
                    (seq 0 (N - length (llm_log w))).
Proof.
  induction r as [|r IH]; intros w Hb Hr Hn Hk; simpl; unfold try_except, chat_create.
  - rewrite fail_then_ge by lia.
    replace (N - length (llm_log w))%nat with 0%nat by lia. simpl.
    now rewrite app_nil_r.
  - destruct (Nat.ltb_spec (length (llm_log w)) N) as [Hlt|Hge].
    + rewrite fail_then_lt by exact Hlt. unfold bind, print, sleep; simpl.
      destruct (Z.ltb_spec (b * (6 - Z.of_nat (S r))) 0) as [Hneg|_]; [nia|].
      rewrite IH; simpl; [| lia | lia | rewrite length_app; simpl; lia
                          | rewrite length_app; simpl; lia].
      rewrite length_app; simpl.
      replace (N - length (llm_log w))%nat
        with (S (N - (length (llm_log w) + 1)))%nat by lia.
      rewrite <- app_assoc. f_equal. simpl. f_equal; [lia|].
      rewrite <- seq_shift, map_map. apply map_ext. intros k. lia.
    + rewrite fail_then_ge by exact Hge.
      replace (N - length (llm_log w))%nat with 0%nat by lia. simpl.
      now rewrite app_nil_r.
Qed.

(** A first request that fails with anything but a rate limit is neither
    retried nor followed by a sleep. *)
Lemma summarize_go_first_error reply (t key : text) r b w e :
  reply (length (llm_log w)) = inl e -> e <> RateLimitError ->
  summarize_go reply t key r b w =
    (Raise e,
     snd (match e with
          | APIError => print (SayExn "An OpenAI API error occurred: " e)
          | KeyboardInterrupt => ret tt
          | _ => print (SayExn "An unexpected error occurred: " e)
          end
          {| fs := fs w; fs_log := fs_log w; out := out w;
             llm_log := llm_log w ++ [(t, key)]; sleeps := sleeps w;
             doc_log := doc_log w |})).
Proof.
  intros Hr Hne. destruct r; simpl; unfold try_except, chat_create;
    rewrite Hr; destruct e; try congruence; reflexivity.
Qed.

End Summarize.

(** ** [str.strip] *)

Lemma lstrip_suffix (s : text) : exists pre, s = pre ++ lstrip s.
Proof.
  induction s as [|c s [pre IH]]; simpl.
  - now exists [].
  - destruct (py_isspace c).
    + exists (c :: pre). simpl. now f_equal.
    + now exists [].
Qed.

Lemma lstrip_head (s : text) x : hd_error (lstrip s) = Some x -> py_isspace x = false.
Proof.
  induction s as [|c s IH]; simpl; [discriminate|].
  destruct (py_isspace c) eqn:Hc; [exact IH|].
  simpl. intros H; injection H as <-; exact Hc.
Qed.

Lemma lstrip_all_space (s : text) :
  Forall (fun x => py_isspace x = true) s -> lstrip s = [].
Proof. induction 1 as [|c s Hc _ IH]; simpl; [reflexivity|]. now rewrite Hc. Qed.

Lemma lstrip_nil_space (s : text) :
  lstrip s = [] -> Forall (fun x => py_isspace x = true) s.
Proof.
  induction s as [|c s IH]; simpl; [constructor|].
  destruct (py_isspace c) eqn:Hc; [|discriminate]. intros H. constructor; auto.
Qed.

Lemma py_strip_nil_space (s : text) :
  py_strip s = [] -> Forall (fun x => py_isspace x = true) s.
Proof.
  unfold py_strip. intros H.
  apply (f_equal (@rev Z)) in H. rewrite rev_involutive in H. simpl in H.
  apply lstrip_nil_space in H. apply Forall_rev in H. rewrite rev_involutive in H.
  destruct (lstrip s) as [|c l] eqn:Hl.
  - now apply lstrip_nil_space.
  - inversion H as [|? ? Hc _]; subst.
    pose proof (lstrip_head s c) as Hh. rewrite Hl in Hh. simpl in Hh.
    rewrite (Hh eq_refl) in Hc. discriminate.
Qed.

Lemma translate_newlines_in (s : text) x :
  In x (translate_newlines s) -> x = 10 \/ In x s.
Proof.
  revert s x. fix IH 1. intros [|c r] x; simpl; [intros []|].
  destruct (c =? 13).
  - destruct r as [|d r'] eqn:Hr; cbv beta iota.
    + intros [<-|[]]; left; reflexivity.
    + destruct (d =? 10); intros [<-|H]; try (left; reflexivity).
      * destruct (IH r' x H); [left|right; right; right]; assumption.
      * rewrite <- Hr in H. destruct (IH r x H) as [|Hin]; [left; assumption|].
        rewrite Hr in Hin. right; right; exact Hin.
  - intros [<-|H]; [right; left; reflexivity|].
    destruct (IH r x H); [left|right; right]; assumption.
Qed.

Lemma translate_newlines_space (s : text) :
  Forall (fun x => py_isspace x = true) s ->
  Forall (fun x => py_isspace x = true) (translate_newlines s).
Proof.
  rewrite !List.Forall_forall. intros H x Hx.
  destruct (translate_newlines_in s x Hx) as [->|Hin]; [reflexivity|auto].
Qed.

Lemma py_strip_translate_nil (s : text) :
  py_strip s = [] -> py_strip (translate_newlines s) = [].
Proof.
  intros H. unfold py_strip.
  rewrite (lstrip_all_space _ (translate_newlines_space _ (py_strip_nil_space _ H))).
  reflexivity.
Qed.

Lemma py_strip_ends (s : text) x :
  hd_error (py_strip s) = Some x \/ hd_error (rev (py_strip s)) = Some x ->
  py_isspace x = false.
Proof.
  unfold py_strip. rewrite rev_involutive.
  set (a := lstrip s). set (b := lstrip (rev a)).
  intros [H|H]; [|exact (lstrip_head _ _ H)].
  destruct (lstrip_suffix (rev a)) as [pre Hpre]. fold b in Hpre.
  assert (Ha : a = rev b ++ rev pre).
  { rewrite <- (rev_involutive a), Hpre, rev_app_distr. reflexivity. }
  destruct (rev b) as [|y l] eqn:Hb; [discriminate|].
  simpl in H. injection H as <-.
  apply (lstrip_head s). fold a. rewrite Ha. reflexivity.
Qed.

(** ** The orchestrator's [except] clauses *)

Lemma main_except_report (e : exn) (w : world) :
  exists d, fst (main_except e w) = Ok tt /\
    out (snd (main_except e w)) = out w ++ d /\
    (In (SayTrace e) d <->
       is_Exception e = true /\ is_OpenAIError e = false /\
       forall msg, e <> FileNotFoundError msg).
Proof.
  destruct e; simpl;
    [destruct (str_contains "Credentials file not found" msg);
     [|destruct (str_contains "OpenAI API key file not found" msg)] | ..];
    simpl; eexists; (split; [reflexivity|]);
    (split; [first [reflexivity | symmetry; apply app_nil_r
                   | rewrite <- app_assoc; reflexivity] |]);
    simpl; split;
    solve [ intros H; repeat destruct H as [H|H]; try discriminate; contradiction
          | intros (_ & _ & H); now destruct (H msg)
          | intros (H & _); discriminate
          | intros (_ & H & _); discriminate
          | intros _; repeat split; discriminate
          | intros _; auto ].
Qed.

(** ** Preservation through the script *)

Create HintDb pres discriminated.

Lemma pres_ret {A} P (a : A) : preserves P (ret a).
Proof. intros w H; exact H. Qed.

Lemma pres_raise {A} P e : preserves P (@raise A e).
Proof. intros w H; exact H. Qed.

Lemma pres_bind {A B} P (m : M A) (k : A -> M B) :
  preserves P m -> (forall a, preserves P (k a)) -> preserves P (bind m k).
Proof.
  intros Hm Hk w H. unfold bind. specialize (Hm w H).
  destruct (m w) as [[a|e] w']; simpl in *; [apply Hk|]; exact Hm.
Qed.

Lemma pres_try_except {A} P (m : M A) h :
  preserves P m -> (forall e, preserves P (h e)) -> preserves P (try_except m h).
Proof.
  intros Hm Hh w H. unfold try_except. specialize (Hm w H).
  destruct (m w) as [[a|e] w']; simpl in *; [|apply Hh]; exact Hm.
Qed.

Lemma pres_try_finally {A} P (m : M A) f :
  preserves P m -> preserves P f -> preserves P (try_finally m f).
Proof.
  intros Hm Hf w H. unfold try_finally. specialize (Hm w H).
  destruct (m w) as [r w']. specialize (Hf w' Hm).
  destruct (f w') as [[u|e] w'']; exact Hf.
Qed.

Lemma pres_print Q ev : preserves (on_files Q) (print ev).
Proof. intros w H; exact H. Qed.

Lemma pres_exists_file Q f : preserves (on_files Q) (exists_file f).
Proof. intros w H; exact H. Qed.

Lemma pres_read_file Q f : preserves (on_files Q) (read_file f).
Proof. intros w H; exact H. Qed.

Lemma pres_sleep Q t : preserves (on_files Q) (sleep t).
Proof. intros w H; unfold sleep; destruct (t <? 0); exact H. Qed.

Lemma pres_chat_create Q reply (t key : text) : preserves (on_files Q) (chat_create reply t key).
Proof. intros w H; unfold chat_create; destruct (reply _); exact H. Qed.

Lemma pres_doc_call_api {A} Q c (answer : exn + A) : preserves (on_files Q) (doc_call_api c answer).
Proof. intros w H; unfold doc_call_api; destruct answer; exact H. Qed.

Lemma pres_put_file Q f t : write_stable Q f -> preserves (on_files Q) (put_file f t).
Proof. intros HQ w H. apply HQ, H. Qed.

Lemma pres_remove_file Q f : remove_stable Q f -> preserves (on_files Q) (remove_file f).
Proof. intros HQ w H. apply HQ, H. Qed.

Global Hint Resolve pres_ret pres_raise pres_print pres_exists_file pres_read_file
  pres_sleep pres_chat_create pres_doc_call_api pres_put_file pres_remove_file : pres.

Ltac pres_tac :=
  repeat (cbv beta zeta;
    match goal with
    | |- preserves _ (bind _ _) => apply pres_bind; [|intros ?]
    | |- preserves _ (try_except _ _) => apply pres_try_except; [|intros ?]
    | |- preserves _ (try_finally _ _) => apply pres_try_finally
    | |- preserves _ (match ?x with _ => _ end) => destruct x
    | |- preserves _ (if ?b then _ else _) => destruct b
    | |- preserves _ _ => solve [eauto with pres]
    end).

Lemma pres_write_file E Q f t : write_stable Q f -> preserves (on_files Q) (write_file E f t).
Proof. intros HQ. unfold write_file. pres_tac. Qed.

Lemma pres_summarize_go Q reply (t key : text) r b :
  preserves (on_files Q) (summarize_go reply t key r b).
Proof. induction r; simpl; pres_tac. Qed.

Lemma pres_summarize E Q (t key : text) m b : preserves (on_files Q) (summarize E t key m b).
Proof. apply pres_summarize_go. Qed.

Lemma pres_record_and_transcribe E Q filename lang :
  write_stable Q filename -> write_stable Q (splitext_root filename +:+ ".txt") ->
  preserves (on_files Q) (record_and_transcribe E filename lang).
Proof. intros H1 H2. unfold record_and_transcribe. pres_tac. Qed.

Lemma pres_get_openai_api_key Q p : preserves (on_files Q) (get_openai_api_key p).
Proof. unfold get_openai_api_key. pres_tac. Qed.

Lemma pres_get_google_creds E Q p :
  write_stable Q "token.json" -> preserves (on_files Q) (get_google_creds E p).
Proof.
  intros H. unfold get_google_creds. pres_tac. apply pres_write_file, H.
Qed.

Lemma pres_create_doc E Q title (content : text) : preserves (on_files Q) (create_doc E title content).
Proof. unfold create_doc. pres_tac. Qed.

Lemma pres_cleanup_files E Q l :
  Forall (remove_stable Q) l -> preserves (on_files Q) (cleanup_files E l).
Proof.
  induction 1 as [|f l Hf _ IH]; simpl; pres_tac; try exact IH.
Qed.

Lemma pres_main_except Q e : preserves (on_files Q) (main_except e).
Proof. unfold main_except. pres_tac. Qed.

Global Hint Resolve pres_write_file pres_summarize pres_get_openai_api_key
  pres_create_doc pres_main_except : pres.

(** ** The script's file names *)

Lemma splitext_root_head (p : string) :
  String.get 0 (splitext_root p) = None \/ String.get 0 (splitext_root p) = String.get 0 p.
Proof.
  unfold splitext_root. cbv zeta.
  destruct (_ <? _); [|now right].
  destruct (existsb _ _); [|now right].
  destruct p as [|a p']; [now left|]. simpl.
  destruct (Z.to_nat _); [now left | now right].
Qed.

Lemma get0_append_txt (r : string) :
  String.get 0 (r +:+ ".txt") = match String.get 0 r with None => Some "."%char | x => x end.
Proof. now destruct r. Qed.

Lemma side_output_file_head E :
  String.get 0 (side_output_file E) = Some "r"%char \/
  String.get 0 (side_output_file E) = Some "."%char.
Proof.
  unfold side_output_file. rewrite get0_append_txt.
  destruct (splitext_root_head (recording_file E)) as [H|H]; rewrite H; [now right|now left].
Qed.

Lemma file_names_distinct E :
  recording_file E <> transcription_file E /\ recording_file E <> summary_file E /\
  side_output_file E <> transcription_file E /\ side_output_file E <> summary_file E /\
  "token.json" <> transcription_file E /\ "token.json" <> summary_file E /\
  transcription_file E <> summary_file E /\
  recording_file E <> "" /\ side_output_file E <> "".
Proof.
  pose proof (side_output_file_head E) as Hs.
  repeat split; intros H;
    solve [ apply (f_equal (String.get 0)) in H; destruct Hs as [Hs|Hs];
            rewrite ?H in Hs; simpl in *; congruence
          | apply (f_equal (String.get 1)) in H; simpl in H; congruence ].
Qed.

(** ** Stability of the invariants under writes and removals *)

Lemma durable_write_stable f g : write_stable (durable f) g.
Proof.
  intros m log t [H1 H2]. split.
  - rewrite in_app_iff. simpl. destruct (decide (g = f)) as [->|Hne].
    + rewrite lookup_insert_eq. split; [auto|intros _; eauto].
    + rewrite lookup_insert_ne by congruence. rewrite H1.
      split; [tauto|]. intros [H|[H|[]]]; [exact H|congruence].
  - rewrite in_app_iff. simpl. intros [H|[H|[]]]; [contradiction|discriminate].
Qed.

Lemma durable_remove_stable f g : g <> f -> remove_stable (durable f) g.
Proof.
  intros Hne m log [H1 H2]. split.
  - rewrite lookup_delete_ne by congruence. rewrite H1, in_app_iff. simpl.
    split; [tauto|]. intros [H|[H|[]]]; [exact H|discriminate].
  - rewrite in_app_iff. simpl. intros [H|[H|[]]]; [contradiction|congruence].
Qed.

Lemma holds_at_write_stable f v g : g <> f -> write_stable (holds_at f v) g.
Proof. intros Hne m log t H. unfold holds_at in *. now rewrite lookup_insert_ne by congruence. Qed.

Lemma holds_at_remove_stable f v g : g <> f -> remove_stable (holds_at f v) g.
Proof. intros Hne m log H. unfold holds_at in *. now rewrite lookup_delete_ne by congruence. Qed.

Lemma absent_remove_stable f g : remove_stable (holds_at f None) g.
Proof.
  intros m log H. unfold holds_at in *. destruct (decide (g = f)) as [->|Hne].
  - apply lookup_delete_eq.
  - now rewrite lookup_delete_ne by congruence.
Qed.

Lemma logged_write_stable op g : write_stable (logged op) g.
Proof. intros m log t H. unfold logged in *. apply in_app_iff. now left. Qed.

Lemma logged_remove_stable op g : remove_stable (logged op) g.
Proof. intros m log H. unfold logged in *. apply in_app_iff. now left. Qed.

Lemma written_after_write_stable t s g : g <> s -> write_stable (written_after t s) g.
Proof.
  intros Hne m log x H. unfold written_after in *. rewrite !in_app_iff. simpl.
  intros [Hs|[Hs|[]]]; [left; auto | congruence].
Qed.

Lemma written_after_remove_stable t s g : remove_stable (written_after t s) g.
Proof.
  intros m log H. unfold written_after in *. rewrite !in_app_iff. simpl.
  intros [Hs|[Hs|[]]]; [left; auto | discriminate].
Qed.

Global Hint Resolve logged_write_stable logged_remove_stable absent_remove_stable
  written_after_remove_stable : pres.

(** ** The orchestrator *)

Lemma pres_apply {A} P (m : M A) w : preserves P m -> P w -> P (snd (m w)).
Proof. intros H; apply H. Qed.

Lemma bind_ok {A B} (m : M A) (k : A -> M B) w a w' :
  m w = (Ok a, w') -> bind m k w = k a w'.
Proof. intros H. unfold bind. now rewrite H. Qed.

Lemma bind_raise {A B} (m : M A) (k : A -> M B) w e w' :
  m w = (Raise e, w') -> bind m k w = (Raise e, w').
Proof. intros H. unfold bind. now rewrite H. Qed.

Lemma print_eq ev w : exists w', print ev w = (Ok tt, w') /\ fs w' = fs w /\
  fs_log w' = fs_log w /\ out w' = out w ++ [ev].
Proof. eexists; repeat split. Qed.

Lemma write_file_ok E f t w u w' :
  write_file E f t w = (Ok u, w') -> fs w' = <[f := t]> (fs w) /\ fs_log w' = fs_log w ++ [FsWrite f].
Proof.
  unfold write_file. destruct (open_fails E f); [discriminate|].
  intros H. injection H as _ <-. now split.
Qed.

Lemma pres_main_finally E Q :
  remove_stable Q (recording_file E) -> remove_stable Q (side_output_file E) ->
  preserves (on_files Q) (main_finally E).
Proof.
  intros H1 H2. unfold main_finally. pres_tac.
  apply pres_cleanup_files. repeat constructor; assumption.
Qed.

Lemma main_world E w :
  snd (main E w) = snd (main_finally E (snd (try_except (main_body E) main_except w))).
Proof.
  unfold main, try_finally. destruct (try_except _ _ w) as [r w'].
  simpl. destruct (main_finally E w') as [[u|e] w'']; reflexivity.
Qed.

(** Whatever [Q] holds when the body stops is kept by the [except] and
    [finally] clauses, provided removing the two scratch files keeps it. *)
Lemma main_from_body E Q w :
  remove_stable Q (recording_file E) -> remove_stable Q (side_output_file E) ->
  on_files Q (snd (main_body E w)) -> on_files Q (snd (main E w)).
Proof.
  intros H1 H2 Hb. rewrite main_world. apply pres_apply; [apply pres_main_finally; auto|].
  unfold try_except. destruct (main_body E w) as [[u|e] w'] eqn:Hw; simpl in *; [exact Hb|].
  apply pres_apply; [apply pres_main_except | exact Hb].
Qed.

Lemma pres_main_body E Q :
  write_stable Q (recording_file E) -> write_stable Q (side_output_file E) ->
  write_stable Q (transcription_file E) -> write_stable Q (summary_file E) ->
  write_stable Q "token.json" ->
  preserves (on_files Q) (main_body E).
Proof.
  intros H1 H2 H3 H4 H5. unfold main_body. pres_tac.
  - apply pres_record_and_transcribe; assumption.
  - apply pres_get_google_creds; assumption.
Qed.

Lemma cleanup_files_ok E l w :
  fst (cleanup_files E l w) = Ok tt /\ exists d, out (snd (cleanup_files E l w)) = out w ++ d.
Proof.
  revert w. induction l as [|f l IH]; intros w; simpl.
  - split; [reflexivity|]. exists []. now rewrite app_nil_r.
  - cbv [bind exists_file ret print remove_file].
    destruct (String.eqb f ""); [|destruct (bool_decide _); [destruct (remove_fails E f)|]];
      simpl;
      match goal with |- context [cleanup_files E l ?w'] =>
        destruct (IH w') as [H1 [d Hd]] end;
      (split; [exact H1|]); rewrite Hd; simpl;
      eexists; rewrite <- ?app_assoc; reflexivity.
Qed.

Lemma cleanup_files_absent E l w f :
  In f l -> f <> "" -> remove_fails E f = false ->
  fs (snd (cleanup_files E l w)) !! f = None.
Proof.
  assert (Hp : forall l', preserves (on_files (holds_at f None)) (cleanup_files E l')).
  { intros l'. apply pres_cleanup_files, Forall_forall. intros; apply absent_remove_stable. }
  revert w. induction l as [|g l IH]; intros w Hin Hf Hr; [destruct Hin|].
  simpl. cbv [bind exists_file ret print remove_file].
  destruct (decide (g = f)) as [->|Hne].
  - apply String.eqb_neq in Hf. rewrite Hf.
    destruct (bool_decide (is_Some (fs w !! f))) eqn:He; [rewrite Hr|]; simpl;
      apply (pres_apply (on_files (holds_at f None))); try apply Hp.
    + apply lookup_delete_eq.
    + apply bool_decide_eq_false in He. unfold on_files, holds_at.
      destruct (fs w !! f); [exfalso; apply He; eauto | reflexivity].
  - destruct Hin as [->|Hin]; [congruence|].
    destruct (String.eqb g ""); [now apply IH|].
    destruct (bool_decide _); [destruct (remove_fails E g)|]; simpl; now apply IH.
Qed.

Global Hint Resolve pres_get_google_creds holds_at_write_stable holds_at_remove_stable : pres.

Lemma pres_main_body_written_after E :
  preserves (on_files (written_after (transcription_file E) (summary_file E))) (main_body E).
Proof.
  pose proof (file_names_distinct E) as (D1 & D2 & D3 & D4 & D5 & D6 & D7 & _).
  unfold main_body. apply pres_bind; [apply pres_print|intros _]. cbv beta.
  apply pres_bind;
    [apply pres_record_and_transcribe; apply written_after_write_stable; assumption|].
  intros tr w Hw.
  destruct (write_file E (transcription_file E) tr w) as [[u|e] w1] eqn:Hwf.
  - rewrite (bind_ok _ _ _ _ _ Hwf). apply write_file_ok in Hwf as [_ Hl].
    assert (L : on_files (logged (FsWrite (transcription_file E))) (snd (
      (print (Say ("Local transcription backup saved to: " +:+ transcription_file E));;
       print (Say "=== Generating Summary ===");;
       (do openai_api_key <- get_openai_api_key (openai_key_file E);
        do summary <- summarize E tr openai_api_key 5 2;
        write_file E (summary_file E) summary;;
        print (Say ("Local summary backup saved to: " +:+ summary_file E));;
        print (Say "=== Uploading Summary to Google Docs ===");;
        get_google_creds E (credentials E);;
        (let doc_title := "Summary " +:+ timestamp E in
         print (Say ("Creating Google Doc: " +:+ doc_title));;
         (do doc_url <- create_doc E doc_title summary;
          match doc_url with
          | Some u0 => print (SaySuccess u0)
          | None => ret ()
          end)))) w1))).
    { apply pres_apply; [pres_tac|].
      unfold on_files, logged. rewrite Hl. apply in_app_iff. right. now left. }
    unfold on_files, logged, written_after in *. intros _. exact L.
  - rewrite (bind_raise _ _ _ _ _ Hwf). simpl.
    pose proof (pres_write_file E _ _ tr (written_after_write_stable _ _ _ D7) w Hw) as H.
    rewrite Hwf in H. exact H.
Qed.

(** When the Transcription stage raises, every file-system property that
    writing the two scratch files and removing them keeps holds at the end
    of the run as it held at its start. *)
Lemma main_transcription_fails E w e Q :
  fst (record_and_transcribe E (recording_file E) (language E)
         (snd (print (Say "=== Starting Recording and Transcription ===") w))) = Raise e ->
  write_stable Q (recording_file E) -> write_stable Q (side_output_file E) ->
  remove_stable Q (recording_file E) -> remove_stable Q (side_output_file E) ->
  on_files Q w -> on_files Q (snd (main E w)).
Proof.
  intros He W1 W2 R1 R2 Hw. apply main_from_body; [exact R1|exact R2|].
  destruct (record_and_transcribe E (recording_file E) (language E)
              (snd (print (Say "=== Starting Recording and Transcription ===") w)))
    as [r w2] eqn:HR.
  simpl in He. subst r. unfold main_body.
  rewrite (bind_ok _ _ w tt (snd (print (Say "=== Starting Recording and Transcription ===") w)))
    by reflexivity.
  cbv beta. rewrite (bind_raise _ _ _ _ _ HR). simpl.
  replace w2 with (snd (record_and_transcribe E (recording_file E) (language E)
              (snd (print (Say "=== Starting Recording and Transcription ===") w))))
    by now rewrite HR.
  apply pres_apply; [apply pres_record_and_transcribe; assumption | exact Hw].
Qed.

Lemma main_finally_out E w :
  fst (main_finally E w) = Ok tt /\
  exists d, out (snd (main_finally E w)) =
    out w ++ [Say "=== Cleaning Up ==="] ++ d ++
    [SayKept (transcription_file E); SayKept (summary_file E)].
Proof.
  unfold main_finally.
  rewrite (bind_ok _ _ w tt (snd (print (Say "=== Cleaning Up ===") w))) by reflexivity.
  cbv beta.
  destruct (cleanup_files_ok E [recording_file E; side_output_file E]
              (snd (print (Say "=== Cleaning Up ===") w))) as [H1 [d Hd]].
  destruct (cleanup_files E [recording_file E; side_output_file E]
              (snd (print (Say "=== Cleaning Up ===") w))) as [r w2] eqn:Hc.
  simpl in H1, Hd. subst r. rewrite (bind_ok _ _ _ _ _ Hc). simpl.
  split; [reflexivity|]. exists d. rewrite Hd. simpl. now rewrite <- !app_assoc.
Qed.

(** * The claims *)

(** ** C1 *)

(** Claim C1, as stated: with [max_attempts = 5] a collaborator that fails
    five times must make the call fail.  [summarize_text] counts
    [max_retries] retries after the first request, so five rate limits
    followed by an answer still succeed. *)
Lemma C1_five_rate_limits_succeed :
  fst (summarize_text (fail_then 5 [1]) [] [] 5 2 empty_world) = Ok [1]
  /\ ~ (5 < 5)%nat.
Proof. split; [reflexivity | lia]. Qed.

(** Claim C1, amended: for [max_retries <= 6] and [backoff_factor >= 0]
    (so that no computed wait is negative), a collaborator that raises
    [RateLimitError] on its first [N] requests and then answers [c] makes
    [summarize_text] return [c] exactly when [N <= max_retries], i.e.
    when [N] is below [max_retries + 1] requests in total; otherwise the
    last [RateLimitError] is re-raised. *)
Theorem summarize_retry_count (N : nat) (m b : Z) (c t key : text) (w : world) :
  llm_log w = [] -> 0 <= b -> m <= 6 ->
  (fst (summarize_text (fail_then N c) t key m b w) = Ok c <-> (N <= Z.to_nat m)%nat) /\
  ((Z.to_nat m < N)%nat ->
   fst (summarize_text (fail_then N c) t key m b w) = Raise RateLimitError).
Proof.
  intros Hlog Hb Hm. unfold summarize_text.
  rewrite summarize_go_fail_then by (rewrite ?Hlog; simpl; lia).
  rewrite Hlog. simpl. rewrite Nat.sub_0_r.
  destruct (Nat.leb_spec N (Z.to_nat m)); split.
  - tauto.
  - lia.
  - split; [discriminate | lia].
  - reflexivity.
Qed.

Lemma summarize_retry_count_witness :
  (llm_log empty_world = [] /\ 0 <= 2 /\ 5 <= 6) /\
  fst (summarize_text (fail_then 5 [1]) [] [] 5 2 empty_world) = Ok [1].
Proof.
  split; [repeat split; lia|].
  apply (proj1 (summarize_retry_count 5 5 2 [1] [] [] empty_world
                  eq_refl ltac:(lia) ltac:(lia))).
  simpl. lia.
Defined.

(** ** C2 *)

(** Claim C2 (code bug): line 167 computes the wait as
    [backoff_factor * (6 - max_retries)], with [6] being the default
    [max_retries + 1].  With [max_retries = 3], [backoff_factor = 2] and
    one rate limit, the only delay is 6, not [backoff_factor * 1 = 2]. *)
Theorem summarize_delay_max_retries_3 :
  summarize_text (fail_then 1 [1]) [] [] 3 2 empty_world =
    (Ok [1], {| fs := ∅; fs_log := []; out := [SayRetry 6]; llm_log := [([], []); ([], [])];
                sleeps := [6]; doc_log := [] |}).
Proof. reflexivity. Qed.

(** The general schedule: before a success after [N <= max_retries]
    rate limits, the delays are [backoff_factor * (6 - max_retries + k)]
    for [k = 0 .. N-1]; it is [backoff_factor * (k + 1)] only for
    [max_retries = 5]. *)
Lemma summarize_delays (N : nat) (m b : Z) (c t key : text) (w : world) :
  llm_log w = [] -> 0 <= b -> 0 <= m <= 6 -> (N <= Z.to_nat m)%nat ->
  sleeps (snd (summarize_text (fail_then N c) t key m b w)) =
    sleeps w ++ map (fun k => b * (6 - m + Z.of_nat k)) (seq 0 N).
Proof.
  intros Hlog Hb Hm HN. unfold summarize_text.
  rewrite summarize_go_delays by (rewrite ?Hlog; simpl; lia).
  rewrite Hlog, Z2Nat.id by lia. simpl. now rewrite Nat.sub_0_r.
Qed.

Lemma summarize_default_delays :
  sleeps (snd (summarize_text (fail_then 4 [1]) [] [] 5 2 empty_world)) = [2; 4; 6; 8].
Proof. reflexivity. Qed.

(** ** C5 *)

(** Claim C5, as stated, says an unexpected non-API error is surfaced with
    full diagnostic detail.  A [FileNotFoundError] raised by the chat
    collaborator is not retried, but the orchestrator's
    [except FileNotFoundError] clause reports it in one line, without a
    traceback. *)
Lemma C5_file_not_found_no_trace :
  let w := snd (main (demo_env (fun _ => inl (FileNotFoundError "[Errno 2] No such file or directory: 'cacert.pem'"))
                          (fun _ => false))
                     (demo_world [107; 101; 121])) in
  existsb is_trace (out w) = false /\ length (llm_log w) = 1%nat /\ sleeps w = [].
Proof. vm_compute. repeat split. Qed.

(** Claim C5, amended: when the first request raises any exception other
    than [RateLimitError], [summarize_text] makes exactly that one request,
    sleeps for no delay and re-raises the same exception; the orchestrator
    then prints a traceback exactly for the exceptions that are neither
    OpenAI errors, [FileNotFoundError] nor [KeyboardInterrupt], and a
    one-line report otherwise. *)
Theorem summarize_no_retry reply (t key : text) (m b : Z) (w : world) (e : exn) :
  reply (length (llm_log w)) = inl e -> e <> RateLimitError ->
  fst (summarize_text reply t key m b w) = Raise e /\
  length (llm_log (snd (summarize_text reply t key m b w))) = S (length (llm_log w)) /\
  sleeps (snd (summarize_text reply t key m b w)) = sleeps w /\
  (forall w0, exists d, fst (main_except e w0) = Ok tt /\
     out (snd (main_except e w0)) = out w0 ++ d /\
     (In (SayTrace e) d <->
        is_Exception e = true /\ is_OpenAIError e = false /\
        forall msg, e <> FileNotFoundError msg)).
Proof.
  intros Hr Hne. unfold summarize_text.
  rewrite (summarize_go_first_error reply t key _ b w e Hr Hne).
  split; [reflexivity|].
  split; [destruct e; simpl; rewrite length_app; simpl; lia|].
  split; [destruct e; reflexivity|].
  apply main_except_report.
Qed.

Lemma summarize_no_retry_witness :
  fst (summarize_text (fun _ => inl APIError) [] [] 5 2 empty_world) = Raise APIError.
Proof.
  apply (summarize_no_retry (fun _ => inl APIError) [] [] 5 2 empty_world APIError
           eq_refl ltac:(discriminate)).
Defined.

(** ** C10 *)

(** Claim C10: [get_openai_api_key] returns the file's contents, as a
    text-mode read gives them (newlines translated), passed through
    [str.strip()]; the result is non-empty and neither starts nor
    ends with whitespace, and a file holding only whitespace is rejected
    with [ValueError]. *)
Theorem get_openai_api_key_stripped (p : string) (w w' : world) (k : text) :
  get_openai_api_key p w = (Ok k, w') ->
  (exists c, fs w !! p = Some c /\ k = py_strip (translate_newlines c)) /\ k <> [] /\
  (forall x, hd_error k = Some x \/ hd_error (rev k) = Some x -> py_isspace x = false) /\
  (forall c, fs w !! p = Some c -> Forall (fun x => py_isspace x = true) c ->
   fst (get_openai_api_key p w) = Raise (ValueError "OpenAI API key file is empty.")).
Proof.
  unfold get_openai_api_key, bind, exists_file, try_except, read_file.
  destruct (fs w !! p) as [c|] eqn:Hp; simpl.
  - rewrite Hp; simpl.
    destruct (py_strip (translate_newlines c)) as [|y l] eqn:Hs; simpl; [discriminate|].
    intros H; injection H as <- _.
    split; [now exists c|]. split; [discriminate|].
    split; [intros x Hx; rewrite <- Hs in Hx; exact (py_strip_ends _ x Hx)|].
    intros c' Hc' Hall. injection Hc' as <-.
    unfold py_strip in Hs.
    rewrite (lstrip_all_space _ (translate_newlines_space c Hall)) in Hs.
    discriminate.
  - discriminate.
Qed.

Lemma get_openai_api_key_stripped_witness :
  get_openai_api_key "k" {| fs := <["k" := [32; 107; 10]]> ∅; fs_log := []; out := [];
                            llm_log := []; sleeps := []; doc_log := [] |} =
    (Ok [107], {| fs := <["k" := [32; 107; 10]]> ∅; fs_log := []; out := [];
                  llm_log := []; sleeps := []; doc_log := [] |}) /\
  [107] <> [].
Proof.
  assert (H : get_openai_api_key "k" {| fs := <["k" := [32; 107; 10]]> ∅; fs_log := []; out := [];
                            llm_log := []; sleeps := []; doc_log := [] |} =
    (Ok [107], {| fs := <["k" := [32; 107; 10]]> ∅; fs_log := []; out := [];
                  llm_log := []; sleeps := []; doc_log := [] |})) by reflexivity.
  split; [exact H|].
  exact (proj1 (proj2 (get_openai_api_key_stripped _ _ _ _ H))).
Defined.

(** ** C3 *)

(** Claim C3: at the end of every run (started with no transcript or
    summary file and an empty log), both durable files exist, the
    transcript alone exists, or neither exists; each of them exists
    whenever it was written during the run, neither is ever removed, and
    when the Transcription stage raises neither exists. *)
Theorem run_durable_artifacts E w :
  fs_log w = [] -> fs w !! transcription_file E = None -> fs w !! summary_file E = None ->
  let w' := snd (main E w) in
  let T := is_Some (fs w' !! transcription_file E) in
  let S := is_Some (fs w' !! summary_file E) in
  ((T /\ S) \/ (T /\ ~ S) \/ (~ T /\ ~ S)) /\
  (In (FsWrite (transcription_file E)) (fs_log w') -> T) /\
  (In (FsWrite (summary_file E)) (fs_log w') -> S) /\
  ~ In (FsRemove (transcription_file E)) (fs_log w') /\
  ~ In (FsRemove (summary_file E)) (fs_log w') /\
  (forall e, fst (record_and_transcribe E (recording_file E) (language E)
                (snd (print (Say "=== Starting Recording and Transcription ===") w))) = Raise e ->
   ~ T /\ ~ S).
Proof.
  intros Hlog Ht Hs. cbv zeta.
  pose proof (file_names_distinct E) as (D1 & D2 & D3 & D4 & D5 & D6 & D7 & _).
  assert (Init : forall f, fs w !! f = None -> on_files (durable f) w).
  { intros f Hf. unfold on_files, durable. rewrite Hf, Hlog. simpl.
    split; [split; [intros [x Hx]; discriminate | intros []] | intros []]. }
  assert (Dt : on_files (durable (transcription_file E)) (snd (main E w))).
  { apply main_from_body; [apply durable_remove_stable; congruence
                          | apply durable_remove_stable; congruence |].
    apply pres_apply; [apply pres_main_body; apply durable_write_stable | now apply Init]. }
  assert (Ds : on_files (durable (summary_file E)) (snd (main E w))).
  { apply main_from_body; [apply durable_remove_stable; congruence
                          | apply durable_remove_stable; congruence |].
    apply pres_apply; [apply pres_main_body; apply durable_write_stable | now apply Init]. }
  assert (Wa : on_files (written_after (transcription_file E) (summary_file E)) (snd (main E w))).
  { apply main_from_body; [apply written_after_remove_stable | apply written_after_remove_stable |].
    apply pres_apply; [apply pres_main_body_written_after|].
    unfold on_files, written_after. rewrite Hlog. intros []. }
  unfold on_files, durable, written_after in *.
  destruct Dt as [Dt1 Dt2], Ds as [Ds1 Ds2].
  split; [|split; [apply Dt1|split; [apply Ds1|split; [exact Dt2|split; [exact Ds2|]]]]].
  - destruct (fs (snd (main E w)) !! transcription_file E) as [x|] eqn:HT;
    destruct (fs (snd (main E w)) !! summary_file E) as [y|] eqn:HS.
    + left. split; eauto.
    + right; left. split; [eauto|intros [z Hz]; discriminate].
    + exfalso. assert (Hy : is_Some (Some y)) by eauto.
      apply Ds1, Wa, Dt1 in Hy. destruct Hy as [z Hz]; discriminate.
    + right; right. split; intros [z Hz]; discriminate.
  - intros e He.
    assert (At : on_files (holds_at (transcription_file E) None) (snd (main E w))).
    { apply (main_transcription_fails E w e); try assumption;
        (apply holds_at_write_stable || apply holds_at_remove_stable); congruence. }
    assert (As : on_files (holds_at (summary_file E) None) (snd (main E w))).
    { apply (main_transcription_fails E w e); try assumption;
        (apply holds_at_write_stable || apply holds_at_remove_stable); congruence. }
    unfold on_files, holds_at in At, As. rewrite At, As.
    split; intros [z Hz]; discriminate.
Qed.

Lemma run_durable_artifacts_witness :
  let E := demo_env (fun _ => inr [83]) (fun _ => false) in
  let w := demo_world [107] in
  (fs_log w = [] /\ fs w !! transcription_file E = None /\ fs w !! summary_file E = None) /\
  ~ In (FsRemove (transcription_file E)) (fs_log (snd (main E w))).
Proof.
  cbv zeta. split; [repeat split; reflexivity|].
  apply (run_durable_artifacts (demo_env (fun _ => inr [83]) (fun _ => false)) (demo_world [107]));
    reflexivity.
Defined.

(** ** C4 *)

(** Claim C4, as stated: the audio file is gone after every run.  When
    [os.remove] refuses it, [cleanup_files] catches the [OSError], prints a
    warning and the file stays. *)
Lemma C4_remove_refused_keeps_audio :
  fs (snd (main (demo_env (fun _ => inr [83])
                          (fun f => String.eqb f "recording_2024-05-01_10-00-00.wav"))
                (demo_world [107])))
    !! "recording_2024-05-01_10-00-00.wav" = Some [].
Proof. vm_compute. reflexivity. Qed.

(** Claim C4, amended: on every exit path of [main], the [finally] clause
    removes the audio file [recording_<ts>.wav] and whisper's side output
    [recording_<ts>.txt], unless [os.remove] itself fails on one of them
    (the error is then caught and only a warning is printed). *)
Theorem main_removes_scratch_files E w :
  remove_fails E (recording_file E) = false -> remove_fails E (side_output_file E) = false ->
  fs (snd (main E w)) !! recording_file E = None /\
  fs (snd (main E w)) !! side_output_file E = None.
Proof.
  intros R1 R2. pose proof (file_names_distinct E) as (_ & _ & _ & _ & _ & _ & _ & N1 & N2).
  rewrite main_world. set (w0 := snd (try_except (main_body E) main_except w)).
  unfold main_finally.
  rewrite (bind_ok _ _ w0 tt (snd (print (Say "=== Cleaning Up ===") w0))) by reflexivity.
  cbv beta.
  destruct (cleanup_files_ok E [recording_file E; side_output_file E]
              (snd (print (Say "=== Cleaning Up ===") w0))) as [H1 _].
  pose proof (cleanup_files_absent E [recording_file E; side_output_file E]
               (snd (print (Say "=== Cleaning Up ===") w0)) (recording_file E)
               ltac:(simpl; auto) N1 R1) as A1.
  pose proof (cleanup_files_absent E [recording_file E; side_output_file E]
               (snd (print (Say "=== Cleaning Up ===") w0)) (side_output_file E)
               ltac:(simpl; auto) N2 R2) as A2.
  destruct (cleanup_files E [recording_file E; side_output_file E]
              (snd (print (Say "=== Cleaning Up ===") w0))) as [r w2] eqn:Hc.
  simpl in H1, A1, A2. subst r. rewrite (bind_ok _ _ _ _ _ Hc). simpl. auto.
Qed.

Lemma main_removes_scratch_files_witness :
  let E := demo_env (fun _ => inr [83]) (fun _ => false) in
  (remove_fails E (recording_file E) = false /\ remove_fails E (side_output_file E) = false) /\
  fs (snd (main E (demo_world [107]))) !! recording_file E = None.
Proof.
  cbv zeta. split; [split; reflexivity|].
  apply (main_removes_scratch_files (demo_env (fun _ => inr [83]) (fun _ => false))
           (demo_world [107])); reflexivity.
Defined.

(** ** C6 *)

(** Claim C6: [main] returns normally whatever its collaborators do (every
    exception they raise is an [Exception] or a [KeyboardInterrupt], all
    caught by the [except] clauses), so the process exits with status 0;
    its output always ends with the [finally] clause's report. *)
Theorem main_never_raises E w :
  fst (main E w) = Ok tt /\
  exists pre post, out (snd (main E w)) =
    pre ++ [Say "=== Cleaning Up ==="] ++ post ++
    [SayKept (transcription_file E); SayKept (summary_file E)].
Proof.
  unfold main, try_finally.
  assert (Hx : fst (try_except (main_body E) main_except w) = Ok tt).
  { unfold try_except. destruct (main_body E w) as [[u|e] wb]; [now destruct u|].
    destruct (main_except_report e wb) as [d [H _]]. exact H. }
  destruct (try_except (main_body E) main_except w) as [r w1]. simpl in Hx. subst r.
  destruct (main_finally_out E w1) as [H1 [d Hd]].
  destruct (main_finally E w1) as [r w2]. simpl in H1, Hd. subst r.
  split; [reflexivity|]. exists (out w1), d. exact Hd.
Qed.

(** ** C7 *)

(** Claim C7, as stated: the Transcription stage persists the transcript
    as its last action.  [record_and_transcribe] only returns the text: on
    a successful run it returns without any transcript file existing. *)
Lemma C7_stage_returns_without_transcript :
  let E := demo_env (fun _ => inr [83]) (fun _ => false) in
  let r := record_and_transcribe E (recording_file E) (language E) (demo_world [107]) in
  fst r = Ok [72; 101; 108; 108; 111] /\ fs (snd r) !! transcription_file E = None.
Proof. vm_compute. split; reflexivity. Qed.

(** Claim C7, amended: [record_and_transcribe] never writes the transcript
    file [transcription_<ts>.txt]; [main] writes it right after the stage
    returns, and it then holds the returned text at the end of the run.
    If the stage raises (including the missing-output case), no transcript
    file exists at the end of the run. *)
Theorem transcript_written_by_main E w :
  (forall w1, fs (snd (record_and_transcribe E (recording_file E) (language E) w1))
                !! transcription_file E = fs w1 !! transcription_file E) /\
  (fs w !! transcription_file E = None ->
   forall e, fst (record_and_transcribe E (recording_file E) (language E)
                    (snd (print (Say "=== Starting Recording and Transcription ===") w))) = Raise e ->
   fs (snd (main E w)) !! transcription_file E = None) /\
  (forall tr, fst (record_and_transcribe E (recording_file E) (language E)
                    (snd (print (Say "=== Starting Recording and Transcription ===") w))) = Ok tr ->
   open_fails E (transcription_file E) = None ->
   fs (snd (main E w)) !! transcription_file E = Some tr).
Proof.
  pose proof (file_names_distinct E) as (D1 & D2 & D3 & D4 & D5 & D6 & D7 & _).
  pose proof (not_eq_sym D7) as D7'.
  split; [|split].
  - intros w1. apply (pres_apply (on_files (holds_at (transcription_file E) _)));
      [apply pres_record_and_transcribe; apply holds_at_write_stable; assumption | reflexivity].
  - intros Ht e He.
    apply (main_transcription_fails E w e (holds_at (transcription_file E) None) He);
      try exact Ht; (apply holds_at_write_stable || apply holds_at_remove_stable); congruence.
  - intros tr Hok Hopen.
    apply (main_from_body E (holds_at (transcription_file E) (Some tr)));
      [apply holds_at_remove_stable; congruence | apply holds_at_remove_stable; congruence |].
    destruct (record_and_transcribe E (recording_file E) (language E)
                (snd (print (Say "=== Starting Recording and Transcription ===") w)))
      as [r w2] eqn:HR.
    simpl in Hok. subst r. unfold main_body.
    rewrite (bind_ok _ _ w tt (snd (print (Say "=== Starting Recording and Transcription ===") w)))
      by reflexivity.
    cbv beta. rewrite (bind_ok _ _ _ _ _ HR). cbv beta.
    assert (Hw : write_file E (transcription_file E) tr w2 =
                 put_file (transcription_file E) tr w2)
      by (unfold write_file; now rewrite Hopen).
    rewrite (bind_ok _ _ _ tt _ Hw).
    apply pres_apply; [pres_tac|].
    unfold on_files, holds_at. simpl. apply lookup_insert_eq.
Qed.

Lemma transcript_written_by_main_witness :
  let E := demo_env (fun _ => inr [83]) (fun _ => false) in
  let w := demo_world [107] in
  (fst (record_and_transcribe E (recording_file E) (language E)
          (snd (print (Say "=== Starting Recording and Transcription ===") w))) =
     Ok [72; 101; 108; 108; 111] /\ open_fails E (transcription_file E) = None) /\
  fs (snd (main E w)) !! transcription_file E = Some [72; 101; 108; 108; 111].
Proof.
  cbv zeta. split; [split; [vm_compute; reflexivity | reflexivity]|].
  apply (proj2 (proj2 (transcript_written_by_main
                         (demo_env (fun _ => inr [83]) (fun _ => false)) (demo_world [107]))));
    [vm_compute; reflexivity | reflexivity].
Defined.

(** ** C8 *)

(** Claim C8: [create_doc] makes the two Google Docs calls in order —
    [create] with the title, then [batchUpdate] inserting the whole
    content at index 1 — and when either raises [HttpError] it prints the
    error and returns [None] instead of raising (after a failed [create]
    the second call is not made). *)
Theorem create_doc_degrades E title (content : text) w :
  (docs_create E = inl HttpError \/ exists id, docs_create E = inr id) ->
  (docs_batch E = None \/ docs_batch E = Some HttpError) ->
  let r := create_doc E title content w in
  match docs_create E with
  | inl _ =>
      fst r = Ok None /\ doc_log (snd r) = doc_log w ++ [DocCreate title] /\
      out (snd r) = out w ++ [SayExn "An error occurred while creating the document: " HttpError]
  | inr id =>
      doc_log (snd r) = doc_log w ++ [DocCreate title; DocBatchUpdate id [InsertText 1 content]] /\
      match docs_batch E with
      | None => fst r = Ok (Some ("https://docs.google.com/document/d/" +:+ id +:+ "/edit")) /\
                out (snd r) = out w
      | Some _ => fst r = Ok None /\
                  out (snd r) = out w ++ [SayExn "An error occurred while creating the document: " HttpError]
      end
  end.
Proof.
  intros Hc Hb. cbv zeta. unfold create_doc, try_except, bind, doc_call_api.
  destruct Hc as [Hc|[id Hc]]; rewrite Hc; simpl; [repeat split|].
  rewrite <- app_assoc. simpl.
  destruct Hb as [Hb|Hb]; rewrite Hb; simpl; repeat split.
Qed.

Lemma create_doc_degrades_witness :
  let E := demo_env (fun _ => inr [83]) (fun _ => false) in
  doc_log (snd (create_doc E "Summary" [83] empty_world)) =
    [DocCreate "Summary"; DocBatchUpdate "doc1" [InsertText 1 [83]]].
Proof.
  cbv zeta.
  apply (proj1 (create_doc_degrades (demo_env (fun _ => inr [83]) (fun _ => false))
                  "Summary" [83] empty_world
                  (or_intror (ex_intro _ "doc1" eq_refl)) (or_introl eq_refl))).
Defined.

(** ** C9 *)

(** Claim C9, as stated: an empty key file is handled like an absent one,
    quietly and with setup instructions.  A key file holding only
    whitespace makes the run print a traceback and no instructions. *)
Lemma C9_empty_key_traceback :
  let w := snd (main (demo_env (fun _ => inr [83]) (fun _ => false)) (demo_world [32; 10])) in
  existsb is_trace (out w) = true /\ ~ In OpenAIKeyInstructions (out w).
Proof.
  vm_compute. split; [reflexivity|].
  intros H. repeat destruct H as [H|H]; try discriminate; exact H.
Qed.

(** Claim C9, amended: when the key file is absent, [get_openai_api_key]
    prints the setup instructions and raises [FileNotFoundError], which the
    orchestrator's [except] clause swallows without printing anything (no
    traceback).  When the file is empty or holds only whitespace it raises
    [ValueError("OpenAI API key file is empty.")] after printing a one-line
    error, without instructions, and the orchestrator reports it as an
    unexpected error with a full traceback. *)
Theorem openai_key_setup_errors (p : string) (w : world) :
  (fs w !! p = None ->
   fst (get_openai_api_key p w) =
     Raise (FileNotFoundError ("OpenAI API key file not found: " +:+ p)) /\
   out (snd (get_openai_api_key p w)) = out w ++ [OpenAIKeyInstructions] /\
   forall w0, main_except (FileNotFoundError ("OpenAI API key file not found: " +:+ p)) w0 =
              (Ok tt, w0)) /\
  (forall c, fs w !! p = Some c -> py_strip c = [] ->
   fst (get_openai_api_key p w) = Raise (ValueError "OpenAI API key file is empty.") /\
   out (snd (get_openai_api_key p w)) =
     out w ++ [SayExn "Error reading OpenAI API key: " (ValueError "OpenAI API key file is empty.")] /\
   forall w0, out (snd (main_except (ValueError "OpenAI API key file is empty.") w0)) =
              out w0 ++ [SayExn "An error occurred: " (ValueError "OpenAI API key file is empty.");
                         SayTrace (ValueError "OpenAI API key file is empty.")]).
Proof.
  split.
  - intros Hp. unfold get_openai_api_key, bind, exists_file. rewrite Hp. simpl.
    split; [reflexivity|]. split; [reflexivity|].
    intros w0. unfold main_except.
    destruct (str_contains "Credentials file not found" _); [reflexivity|].
    reflexivity.
  - intros c Hp Hs. unfold get_openai_api_key, bind, exists_file, try_except, read_file.
    rewrite Hp. simpl. rewrite Hp. cbn [option_map default id].
    rewrite (py_strip_translate_nil c Hs). simpl.
    split; [reflexivity|]. split; [reflexivity|].
    intros w0. simpl. now rewrite <- app_assoc.
Qed.

Lemma openai_key_setup_errors_witness :
  fst (get_openai_api_key "openai_key.txt" empty_world) =
    Raise (FileNotFoundError ("OpenAI API key file not found: " +:+ "openai_key.txt")).
Proof.
  apply (proj1 (proj1 (openai_key_setup_errors "openai_key.txt" empty_world) eq_refl)).
Defined.

(** * Further properties of the script *)

(** ** [rfind] and [os.path.splitext] *)

Lemma rfind_go_notin c l i acc : ~ In c l -> rfind_go c l i acc = acc.
Proof.
  revert i acc. induction l as [|x l IH]; intros i acc Hn; simpl; [reflexivity|].
  destruct (Ascii.eqb_spec x c) as [->|_]; [exfalso; apply Hn; now left|].
  apply IH. intros H; apply Hn; now right.
Qed.

Lemma rfind_go_app c l1 l2 i acc :
  rfind_go c (l1 ++ l2) i acc = rfind_go c l2 (i + Z.of_nat (length l1)) (rfind_go c l1 i acc).
Proof.
  revert i acc. induction l1 as [|x l1 IH]; intros i acc; simpl.
  - now rewrite Z.add_0_r.
  - rewrite IH. f_equal. lia.
Qed.

Lemma rfind_go_ge c l i acc : In c l -> i <= rfind_go c l i acc.
Proof.
  revert i acc. induction l as [|x l IH]; intros i acc Hin; simpl; [destruct Hin|].
  destruct (in_dec ascii_dec c l) as [Hl|Hl].
  - specialize (IH (i + 1) (if (x =? c)%char then i else acc) Hl). lia.
  - destruct Hin as [->|Hin]; [|contradiction].
    rewrite Ascii.eqb_refl, rfind_go_notin by exact Hl. lia.
Qed.

Lemma rfind_go_last c l1 l2 i acc :
  ~ In c l2 -> rfind_go c (l1 ++ c :: l2) i acc = i + Z.of_nat (length l1).
Proof.
  intros Hn. rewrite rfind_go_app. simpl. rewrite Ascii.eqb_refl.
  now rewrite rfind_go_notin.
Qed.

Lemma rfind_go_range c l i acc :
  rfind_go c l i acc = acc \/
  exists l1 l2, l = l1 ++ c :: l2 /\ ~ In c l2 /\ rfind_go c l i acc = i + Z.of_nat (length l1).
Proof.
  destruct (in_dec ascii_dec c l) as [Hin|Hn]; [right|left; now apply rfind_go_notin].
  revert i acc Hin. induction l as [|x l IH] using rev_ind; intros i acc Hin; [destruct Hin|].
  destruct (Ascii.eqb_spec x c) as [->|Hx].
  - exists l, []. split; [reflexivity|]. split; [intros []|]. now apply rfind_go_last.
  - apply in_app_iff in Hin. destruct Hin as [Hin|[H|[]]]; [|congruence].
    destruct (IH i acc Hin) as (l1 & l2 & -> & Hn & Hr).
    exists l1, (l2 ++ [x]). rewrite <- app_assoc. split; [reflexivity|].
    split; [rewrite in_app_iff; intros [H|[H|[]]]; congruence|].
    apply rfind_go_last. rewrite in_app_iff; intros [H|[H|[]]]; congruence.
Qed.

Lemma string_of_list_ascii_app (l1 l2 : list ascii) :
  string_of_list_ascii (l1 ++ l2) = string_of_list_ascii l1 +:+ string_of_list_ascii l2.
Proof. induction l1 as [|x l1 IH]; simpl; [reflexivity|]. now rewrite IH. Qed.

Lemma list_ascii_of_string_app (s1 s2 : string) :
  list_ascii_of_string (s1 +:+ s2) = list_ascii_of_string s1 ++ list_ascii_of_string s2.
Proof. induction s1 as [|x s1 IH]; [reflexivity|]. exact (f_equal (cons x) IH). Qed.

Lemma string_app_nil_r (s : string) : s +:+ "" = s.
Proof. induction s as [|x s IH]; [reflexivity|]. exact (f_equal (String x) IH). Qed.

Lemma string_app_assoc (a b c : string) : a +:+ b +:+ c = (a +:+ b) +:+ c.
Proof. induction a as [|x a IH]; [reflexivity|]. exact (f_equal (String x) IH). Qed.

(** X1: [os.path.splitext(p)[0]] is a prefix of [p]; what it cuts off is
    either nothing or a ['.'] followed by characters that contain no further
    ['.'] and no ['/'] (the extension of the last path component). *)
Theorem splitext_root_ext (p : string) :
  exists ext, p = splitext_root p +:+ ext /\
    (ext = "" \/ exists e, ext = String "." e /\
       ~ In "."%char (list_ascii_of_string e) /\ ~ In "/"%char (list_ascii_of_string e)).
Proof.
  unfold splitext_root, rfind. cbv zeta.
  set (l := list_ascii_of_string p).
  destruct (Z.ltb_spec (rfind_go "/" l 0 (-1)) (rfind_go "." l 0 (-1))) as [Hlt|_];
    [|exists ""; split; [now rewrite string_app_nil_r|now left]].
  destruct (existsb _ _); [|exists ""; split; [now rewrite string_app_nil_r|now left]].
  destruct (rfind_go_range "."%char l 0 (-1)) as [Hd|(l1 & l2 & Hl & Hn & Hd)].
  - exfalso. rewrite Hd in Hlt.
    destruct (rfind_go_range "/"%char l 0 (-1)) as [Hs|(? & ? & _ & _ & Hs)]; rewrite Hs in Hlt; lia.
  - rewrite Hd. rewrite Z.add_0_l, Nat2Z.id.
    rewrite Hl, firstn_app, Nat.sub_diag, firstn_all. simpl firstn. rewrite app_nil_r.
    exists (String "." (string_of_list_ascii l2)). split.
    + rewrite <- (string_of_list_ascii_of_string p). fold l. rewrite Hl.
      rewrite string_of_list_ascii_app. reflexivity.
    + right. exists (string_of_list_ascii l2). split; [reflexivity|].
      rewrite list_ascii_of_string_of_list_ascii. split; [exact Hn|].
      intros Hs. assert (Hge := rfind_go_ge "/"%char l2 (Z.of_nat (length l1) + 1)
                          (rfind_go "/" (l1 ++ ["."%char]) 0 (-1)) Hs).
      rewrite Hd in Hlt.
      replace l with ((l1 ++ ["."%char]) ++ l2) in Hlt by (rewrite Hl, <- app_assoc; reflexivity).
      rewrite rfind_go_app, length_app in Hlt. simpl length in Hlt.
      replace (0 + Z.of_nat (length l1 + 1)) with (Z.of_nat (length l1) + 1) in Hlt by lia.
      lia.
Qed.

Lemma splitext_root_wav (s : string) :
  ~ In "/"%char (list_ascii_of_string s) ->
  existsb (fun c => negb (Ascii.eqb c "."%char)) (list_ascii_of_string s) = true ->
  splitext_root (s +:+ ".wav") = s.
Proof.
  intros Hs Hd. unfold splitext_root, rfind. cbv zeta.
  rewrite list_ascii_of_string_app. cbn [list_ascii_of_string].
  set (l1 := list_ascii_of_string s) in *.
  rewrite rfind_go_last by (simpl; intros [H|[H|[H|[]]]]; discriminate).
  rewrite rfind_go_notin
    by (rewrite in_app_iff; simpl; intros [H|[H|[H|[H|[H|[]]]]]]; [contradiction|discriminate..]).
  destruct (Z.ltb_spec (-1) (0 + Z.of_nat (length l1))) as [_|Hl]; [|lia].
  rewrite Z.add_0_l, Nat2Z.id, firstn_app, Nat.sub_diag, firstn_all. simpl.
  rewrite app_nil_r. replace (drop (Z.to_nat (-1 + 1)) l1) with l1 by reflexivity.
  rewrite Hd. unfold l1. apply string_of_list_ascii_of_string.
Qed.

(** X2: for every timestamp without a ['/'] (so for every value of
    [strftime("%Y-%m-%d_%H-%M-%S")]), the second file the [finally] clause
    cleans up, [os.path.splitext(filename)[0] + ".txt"], is
    [recording_<timestamp>.txt]. *)
Theorem side_output_file_name E :
  ~ In "/"%char (list_ascii_of_string (timestamp E)) ->
  side_output_file E = "recording_" +:+ timestamp E +:+ ".txt".
Proof.
  intros Hts. unfold side_output_file, recording_file.
  replace ("recording_" +:+ timestamp E +:+ ".wav")
    with (("recording_" +:+ timestamp E) +:+ ".wav") by (symmetry; apply string_app_assoc).
  rewrite splitext_root_wav.
  - symmetry. apply string_app_assoc.
  - rewrite list_ascii_of_string_app. rewrite in_app_iff. simpl.
    intros [H|H]; [repeat destruct H as [H|H]; try discriminate; exact H | contradiction].
  - rewrite list_ascii_of_string_app. reflexivity.
Qed.

Lemma side_output_file_name_witness :
  let E := demo_env (fun _ => inr [83]) (fun _ => false) in
  ~ In "/"%char (list_ascii_of_string (timestamp E)) /\
  side_output_file E = "recording_2024-05-01_10-00-00.txt".
Proof.
  cbv zeta.
  assert (H : ~ In "/"%char (list_ascii_of_string (timestamp (demo_env (fun _ => inr [83]) (fun _ => false))))).
  { simpl. intros H. repeat (destruct H as [H|H]; [discriminate|]). exact H. }
  split; [exact H|]. exact (side_output_file_name _ H).
Defined.

(** ** [cleanup_files] *)

Lemma cleanup_files_cons E g l w :
  exists w1, cleanup_files E (g :: l) w = cleanup_files E l w1 /\
    forall f, fs w1 !! f =
      if String.eqb g f && negb (String.eqb f "") && negb (remove_fails E f)
      then None else fs w !! f.
Proof.
  simpl. cbv [bind exists_file ret print remove_file].
  destruct (String.eqb_spec g "") as [->|Hg].
  - eexists; split; [reflexivity|]. intros f.
    destruct (String.eqb_spec "" f) as [<-|]; reflexivity.
  - destruct (bool_decide (is_Some (fs w !! g))) eqn:He;
      [destruct (remove_fails E g) eqn:Hr|];
      (eexists; split; [reflexivity|]); intros f; simpl;
      destruct (String.eqb_spec g f) as [<-|Hne]; simpl; try reflexivity;
      rewrite ?Hr; (destruct (String.eqb_spec g "") as [|_]; [congruence|]); simpl;
      try reflexivity.
    + apply lookup_delete_eq.
    + now rewrite lookup_delete_ne.
    + apply bool_decide_eq_false in He.
      destruct (remove_fails E g); simpl; [reflexivity|].
      destruct (fs w !! g); [exfalso; apply He; eauto|reflexivity].
Qed.

(** X3: [cleanup_files] never raises, and afterwards a file is absent
    exactly when it is named in the arguments, its name is not empty and
    [os.remove] does not refuse it; every other file keeps its contents. *)
Theorem cleanup_files_effect E l w f :
  fst (cleanup_files E l w) = Ok tt /\
  fs (snd (cleanup_files E l w)) !! f =
    if bool_decide (f ∈ l) && negb (String.eqb f "") && negb (remove_fails E f)
    then None else fs w !! f.
Proof.
  split; [apply cleanup_files_ok|].
  revert w. induction l as [|g l IH]; intros w.
  - rewrite bool_decide_eq_false_2 by apply not_elem_of_nil. reflexivity.
  - destruct (cleanup_files_cons E g l w) as [w1 [-> Hw1]].
    rewrite IH, Hw1.
    destruct (String.eqb_spec g f) as [<-|Hne].
    + rewrite (bool_decide_eq_true_2 (g ∈ g :: l)) by (apply elem_of_cons; now left).
      destruct (bool_decide (g ∈ l)), (negb (String.eqb g "")), (negb (remove_fails E g));
        reflexivity.
    + simpl. rewrite (bool_decide_ext (f ∈ g :: l) (f ∈ l))
        by (rewrite elem_of_cons; split; [intros [H|H]; [congruence|exact H] | now right]).
      destruct (bool_decide (f ∈ l) && negb (String.eqb f "") && negb (remove_fails E f));
        reflexivity.
Qed.

(** ** [summarize_text] *)

Lemma summarize_go_trace reply (t key : text) (r : nat) (b : Z) :
  forall w, exists k, (k <= r)%nat /\
    llm_log (snd (summarize_go reply t key r b w)) = llm_log w ++ repeat (t, key) (S k) /\
    sleeps (snd (summarize_go reply t key r b w)) =
      sleeps w ++ map (fun i => b * (6 - Z.of_nat r + Z.of_nat i)) (seq 0 k).
Proof.
  induction r as [|r IH]; intros w; simpl; unfold try_except, chat_create;
    destruct (reply (length (llm_log w))) as [e|c];
    try (exists 0%nat; simpl; split; [lia|]; split; [reflexivity|now rewrite app_nil_r]).
  - exists 0%nat. split; [lia|]. destruct e; simpl; split; (reflexivity || now rewrite app_nil_r).
  - destruct e; cbv [bind print sleep raise ret];
      try (exists 0%nat; simpl; split; [lia|]; split; [reflexivity|now rewrite app_nil_r]).
    destruct (b * (6 - Z.of_nat (S r)) <? 0);
      [exists 0%nat; simpl; split; [lia|]; split; [reflexivity|now rewrite app_nil_r]|].
    match goal with |- context [summarize_go reply t key r b ?w'] =>
      destruct (IH w') as (k & Hk & Hl & Hs) end.
    exists (S k). split; [lia|]. rewrite Hl, Hs. simpl. split.
    + rewrite <- app_assoc. reflexivity.
    + rewrite <- app_assoc. f_equal. simpl. f_equal; [lia|].
      rewrite <- seq_shift, map_map. apply map_ext. intros i. lia.
Qed.

(** X4: [summarize_text] makes between 1 and [max_retries + 1] requests
    (one when [max_retries <= 0]), each with the same text and API key,
    and before its [k]-th retry it sleeps [backoff_factor * (6 - max_retries + k - 1)]
    seconds, nothing else. *)
Theorem summarize_text_trace reply (t key : text) (m b : Z) (w : world) :
  exists k, (k <= Z.to_nat m)%nat /\
    llm_log (snd (summarize_text reply t key m b w)) = llm_log w ++ repeat (t, key) (S k) /\
    sleeps (snd (summarize_text reply t key m b w)) =
      sleeps w ++ map (fun i => b * (6 - m + Z.of_nat i)) (seq 0 k).
Proof.
  unfold summarize_text. destruct (summarize_go_trace reply t key (Z.to_nat m) b w) as (k & Hk & Hl & Hs).
  exists k. split; [exact Hk|]. split; [exact Hl|]. rewrite Hs.
  destruct (Z.le_gt_cases 0 m) as [Hm|Hm].
  - now rewrite Z2Nat.id.
  - replace k with 0%nat by lia. reflexivity.
Qed.

(** X5: when [max_retries > 0] and the computed wait
    [backoff_factor * (6 - max_retries)] is negative (e.g. [max_retries >= 7]
    with a positive factor), a first rate limit makes [time.sleep] raise
    [ValueError]: no retry is made and nothing is slept. *)
Theorem summarize_negative_wait reply (t key : text) (m b : Z) (w : world) :
  0 < m -> b * (6 - m) < 0 -> reply (length (llm_log w)) = inl RateLimitError ->
  let r := summarize_text reply t key m b w in
  fst r = Raise (ValueError "sleep length must be non-negative") /\
  llm_log (snd r) = llm_log w ++ [(t, key)] /\ sleeps (snd r) = sleeps w /\
  out (snd r) = out w ++ [SayRetry (b * (6 - m))].
Proof.
  intros Hm Hw Hr. cbv zeta. unfold summarize_text.
  destruct (Z.to_nat m) as [|n] eqn:Hn; [lia|].
  assert (Hwait : b * (6 - Z.of_nat (S n)) = b * (6 - m)) by (rewrite <- Hn, Z2Nat.id; lia).
  simpl. unfold try_except, chat_create. rewrite Hr.
  cbv [bind print sleep]. rewrite Hwait.
  destruct (Z.ltb_spec (b * (6 - m)) 0); [|lia]. simpl. repeat split.
Qed.

Lemma summarize_negative_wait_witness :
  (0 < 7 /\ 2 * (6 - 7) < 0) /\
  fst (summarize_text (fun _ => inl RateLimitError) [] [] 7 2 empty_world) =
    Raise (ValueError "sleep length must be non-negative").
Proof.
  split; [lia|].
  exact (proj1 (summarize_negative_wait (fun _ => inl RateLimitError) [] [] 7 2 empty_world
                  ltac:(lia) ltac:(lia) eq_refl)).
Defined.

(** X6: with [max_retries <= 0] a rate limit on the first request is
    re-raised at once, after the "Max retries exceeded" message, with one
    request and no sleep. *)
Theorem summarize_no_retries_left reply (t key : text) (m b : Z) (w : world) :
  m <= 0 -> reply (length (llm_log w)) = inl RateLimitError ->
  let r := summarize_text reply t key m b w in
  fst r = Raise RateLimitError /\
  llm_log (snd r) = llm_log w ++ [(t, key)] /\ sleeps (snd r) = sleeps w /\
  out (snd r) = out w ++ [Say "Max retries exceeded. Please check your OpenAI quota and billing details."].
Proof.
  intros Hm Hr. cbv zeta. unfold summarize_text.
  replace (Z.to_nat m) with 0%nat by lia.
  simpl. unfold try_except, chat_create. rewrite Hr. simpl. repeat split.
Qed.

Lemma summarize_no_retries_left_witness :
  0 <= 0 /\ fst (summarize_text (fun _ => inl RateLimitError) [] [] 0 2 empty_world) = Raise RateLimitError.
Proof.
  split; [lia|].
  exact (proj1 (summarize_no_retries_left (fun _ => inl RateLimitError) [] [] 0 2 empty_world
                  ltac:(lia) eq_refl)).
Defined.

(** ** [str.__contains__], [main]'s handler and [get_google_creds] *)

Lemma prefix_app (n b : string) : String.prefix n (n +:+ b) = true.
Proof.
  induction n as [|c n IH]; [destruct b; reflexivity|].
  change (String.prefix (String c n) (String c (n +:+ b)) = true).
  unfold String.prefix. fold String.prefix.
  destruct (ascii_dec c c); [exact IH|congruence].
Qed.

Lemma str_contains_app (a n b : string) : str_contains n (a +:+ n +:+ b) = true.
Proof.
  unfold str_contains.
  enough (H : exists k, String.index 0 n (a +:+ n +:+ b) = Some k) by (destruct H as [k ->]; reflexivity).
  induction a as [|c a [k IH]].
  - change ("" +:+ n +:+ b) with (n +:+ b).
    destruct (n +:+ b) as [|c s] eqn:Hs.
    + destruct n; [exists 0%nat; reflexivity|discriminate].
    + exists 0%nat. assert (P : String.prefix n (String c s) = true) by (rewrite <- Hs; apply prefix_app).
      simpl in P |- *. now rewrite P.
  - change (String c a +:+ n +:+ b) with (String c (a +:+ n +:+ b)).
    change (String.index 0 n (String c (a +:+ n +:+ b))) with
      (if String.prefix n (String c (a +:+ n +:+ b)) then Some 0%nat
       else match String.index 0 n (a +:+ n +:+ b) with Some k => Some (S k) | None => None end).
    destruct (String.prefix n _); [now exists 0%nat|]. rewrite IH. now exists (S k).
Qed.

(** X7: [main]'s [except FileNotFoundError] clause returns without
    printing anything for every [FileNotFoundError] whose message contains
    "Credentials file not found" or "OpenAI API key file not found"
    anywhere, whichever code raised it. *)
Theorem main_except_silent_fnf (a b : string) (w : world) :
  main_except (FileNotFoundError (a +:+ "Credentials file not found" +:+ b)) w = (Ok tt, w) /\
  main_except (FileNotFoundError (a +:+ "OpenAI API key file not found" +:+ b)) w = (Ok tt, w).
Proof.
  split; simpl; rewrite str_contains_app; [reflexivity|].
  destruct (str_contains _ _); reflexivity.
Qed.

(** X8: when the credentials file is missing, [get_google_creds] prints
    the setup instructions and raises
    [FileNotFoundError("Credentials file not found: <path>")] without
    touching any file or remote service, and [main]'s handler then prints
    nothing more. *)
Theorem get_google_creds_missing E (p : string) (w : world) :
  fs w !! p = None ->
  get_google_creds E p w =
    (Raise (FileNotFoundError ("Credentials file not found: " +:+ p)),
     snd (print CredentialsInstructions w)) /\
  main_except (FileNotFoundError ("Credentials file not found: " +:+ p)) (snd (print CredentialsInstructions w)) =
    (Ok tt, snd (print CredentialsInstructions w)).
Proof.
  intros Hp. split.
  - unfold get_google_creds, bind, exists_file. rewrite Hp. reflexivity.
  - pose proof (str_contains_app "" "Credentials file not found" (": " +:+ p)) as H.
    change ("" +:+ "Credentials file not found" +:+ ": " +:+ p)
      with ("Credentials file not found: " +:+ p) in H.
    cbv beta iota delta [main_except]. rewrite H. reflexivity.
Qed.

Lemma get_google_creds_missing_witness :
  fst (get_google_creds (demo_env (fun _ => inr [83]) (fun _ => false)) "credentials.json" empty_world) =
    Raise (FileNotFoundError ("Credentials file not found: " +:+ "credentials.json")).
Proof.
  rewrite (proj1 (get_google_creds_missing (demo_env (fun _ => inr [83]) (fun _ => false))
                    "credentials.json" empty_world eq_refl)).
  reflexivity.
Defined.

(** X9: whenever [get_google_creds] returns, [token.json] exists; it
    changes no file other than [token.json]; and with the credentials file
    present and a valid saved token it changes nothing at all (no OAuth
    flow, no write). *)
Theorem get_google_creds_token E (p : string) (w : world) :
  let r := get_google_creds E p w in
  (fst r = Ok tt -> is_Some (fs (snd r) !! "token.json")) /\
  (forall f, f <> "token.json" -> fs (snd r) !! f = fs w !! f) /\
  (is_Some (fs w !! p) -> is_Some (fs w !! "token.json") -> token_valid E = true -> r = (Ok tt, w)).
Proof.
  cbv zeta. unfold get_google_creds, bind, exists_file, ret.
  destruct (bool_decide (is_Some (fs w !! p))) eqn:Hp; simpl.
  - destruct (bool_decide (is_Some (fs w !! "token.json"))) eqn:Ht;
      destruct (token_valid E) eqn:Hv; simpl.
    1: { apply bool_decide_eq_true in Ht. split; [intros _; exact Ht|]. split; [reflexivity|auto]. }
    all: destruct (oauth_flow E) as [e|j]; simpl;
        [|unfold write_file; destruct (open_fails E "token.json") as [e|]; simpl];
        (split; [first [discriminate | intros _; rewrite lookup_insert_eq; eauto]|]);
        (split; [intros f Hf; first [reflexivity | now rewrite lookup_insert_ne by congruence]|]);
        intros _ H1 H2; exfalso;
        first [discriminate | apply bool_decide_eq_false in Ht; contradiction].
  - split; [discriminate|]. split; [reflexivity|].
    intros H. apply bool_decide_eq_false in Hp. contradiction.
Qed.

Lemma get_google_creds_token_witness :
  is_Some (fs (snd (get_google_creds (demo_env (fun _ => inr [83]) (fun _ => false))
                      "credentials.json" (demo_world [107]))) !! "token.json").
Proof.
  apply (proj1 (get_google_creds_token (demo_env (fun _ => inr [83]) (fun _ => false))
                  "credentials.json" (demo_world [107]))).
  reflexivity.
Defined.

(** ** [create_doc] and [record_and_transcribe] *)

(** X10: [create_doc] catches only [HttpError]: any other exception of the
    [create] or [batchUpdate] call propagates unchanged, with nothing
    printed. *)
Theorem create_doc_propagates E title (content : text) (w : world) (e : exn) :
  (docs_create E = inl e \/ exists id, docs_create E = inr id /\ docs_batch E = Some e) ->
  e <> HttpError ->
  fst (create_doc E title content w) = Raise e /\ out (snd (create_doc E title content w)) = out w.
Proof.
  intros Hc Hne. unfold create_doc, try_except, bind, doc_call_api.
  destruct Hc as [Hc|(id & Hc & Hb)]; rewrite Hc; [|rewrite Hb]; simpl;
    (destruct e; try congruence; split; reflexivity).
Qed.

Lemma create_doc_propagates_witness :
  let E := {| timestamp := "2024-05-01_10-00-00"; language := None;
              openai_key_file := "openai_key.txt"; credentials := "credentials.json";
              rec_raises := None; rec_writes := true; whisper_raises := None;
              whisper_writes := Some [72]; llm_reply := (fun _ => inr [83]);
              token_valid := true; oauth_flow := inr []; docs_create := inl APIError;
              docs_batch := None; open_fails := (fun _ => None);
              remove_fails := (fun _ => false) |} in
  (docs_create E = inl APIError /\ APIError <> HttpError) /\
  fst (create_doc E "Summary" [83] empty_world) = Raise APIError.
Proof.
  cbv zeta. split; [split; [reflexivity|discriminate]|].
  eapply proj1. apply create_doc_propagates; [left; reflexivity | discriminate].
Defined.

(** X11: the result of [record_and_transcribe] (when the audio file name
    is not itself whisper's output name): a failure of [rec] other than
    Ctrl+C is re-raised; otherwise a failure of whisper is re-raised;
    otherwise the text whisper wrote is returned, or, if it wrote nothing,
    a stale [<root>.txt] present beforehand (either read back with its
    newlines translated), or else [FileNotFoundError] is raised. *)
Theorem record_and_transcribe_result E (filename : string) (lang : option string) (w : world) :
  splitext_root filename +:+ ".txt" <> filename ->
  let out_file := splitext_root filename +:+ ".txt" in
  let after_whisper :=
    match whisper_raises E with
    | Some e => Raise e
    | None =>
        match whisper_writes E with
        | Some t => Ok (translate_newlines t)
        | None =>
            match fs w !! out_file with
            | Some old => Ok (translate_newlines old)
            | None => Raise (FileNotFoundError ("Could not find transcription file: " +:+ out_file))
            end
        end
    end in
  fst (record_and_transcribe E filename lang w) =
    match rec_raises E with
    | None | Some KeyboardInterrupt => after_whisper
    | Some e => Raise e
    end.
Proof.
  intros Hne. cbv zeta. set (o := splitext_root filename +:+ ".txt") in *.
  destruct w as [fs0 fl0 out0 llm0 sl0 doc0]. cbn [fs].
  unfold record_and_transcribe.
  cbv [bind try_except print put_file ret raise exists_file read_file
       fs fs_log out llm_log sleeps doc_log fst snd]. fold o. clearbody o.
  destruct (rec_writes E); destruct (rec_raises E) as [[]|]; destruct lang;
    destruct (whisper_writes E) as [t|]; destruct (whisper_raises E) as [[]|].
  all: do 2 (cbn; rewrite ?lookup_insert_eq; rewrite ?lookup_insert_ne by congruence).
  all: try destruct (fs0 !! o) eqn:Ho.
  all: cbn; rewrite ?lookup_insert_ne by congruence; rewrite ?Ho; reflexivity.
Qed.

Lemma record_and_transcribe_result_witness :
  let E := demo_env (fun _ => inr [83]) (fun _ => false) in
  splitext_root "recording.wav" +:+ ".txt" <> "recording.wav" /\
  fst (record_and_transcribe E "recording.wav" None empty_world) = Ok [72; 101; 108; 108; 111].
Proof.
  cbv zeta.
  assert (H : splitext_root "recording.wav" +:+ ".txt" <> "recording.wav") by (vm_compute; discriminate).
  split; [exact H|].
  rewrite (record_and_transcribe_result (demo_env (fun _ => inr [83]) (fun _ => false))
             "recording.wav" None empty_world H).
  reflexivity.
Defined.

(** ** Preservation of invariants over the remote logs *)

Create HintDb presw discriminated.

Lemma presw_ret {A} P (a : A) : preserves P (ret a).
Proof. intros w H; exact H. Qed.

Lemma presw_raise {A} P e : preserves P (@raise A e).
Proof. intros w H; exact H. Qed.

Lemma presw_print Q ev : preserves (on_world Q) (print ev).
Proof. intros w H; exact H. Qed.

Lemma presw_exists_file Q f : preserves (on_world Q) (exists_file f).
Proof. intros w H; exact H. Qed.

Lemma presw_read_file Q f : preserves (on_world Q) (read_file f).
Proof. intros w H; exact H. Qed.

Lemma presw_sleep Q t : sleep_ok Q t -> preserves (on_world Q) (sleep t).
Proof. intros HQ w H; unfold sleep; destruct (t <? 0); [exact H|apply HQ, H]. Qed.

Lemma presw_put_file Q f t : ins_ok Q f -> preserves (on_world Q) (put_file f t).
Proof. intros HQ w H. apply HQ, H. Qed.

Lemma presw_remove_file Q f : del_ok Q f -> preserves (on_world Q) (remove_file f).
Proof. intros HQ w H. apply HQ, H. Qed.

Lemma presw_chat_create Q reply (t key : text) :
  chat_ok Q (t, key) -> preserves (on_world Q) (chat_create reply t key).
Proof. intros HQ w H; unfold chat_create; destruct (reply _); apply HQ, H. Qed.

Lemma presw_doc_call_api {A} Q c (answer : exn + A) :
  call_ok Q c -> preserves (on_world Q) (doc_call_api c answer).
Proof. intros HQ w H; unfold doc_call_api; destruct answer; apply HQ, H. Qed.

Global Hint Resolve presw_ret presw_raise presw_print presw_exists_file presw_read_file
  presw_sleep presw_put_file presw_remove_file presw_chat_create presw_doc_call_api : presw.

Ltac presw_tac :=
  repeat (cbv beta zeta;
    match goal with
    | |- preserves _ (bind _ _) => apply pres_bind; [|intros ?]
    | |- preserves _ (try_except _ _) => apply pres_try_except; [|intros ?]
    | |- preserves _ (try_finally _ _) => apply pres_try_finally
    | |- preserves _ (match ?x with _ => _ end) => destruct x
    | |- preserves _ (if ?b then _ else _) => destruct b
    | |- preserves _ _ => solve [eauto with presw]
    end).

Lemma presw_write_file E Q f t : ins_ok Q f -> preserves (on_world Q) (write_file E f t).
Proof. intros HQ. unfold write_file. presw_tac. Qed.

Lemma presw_summarize E Q (t key : text) m b :
  chat_ok Q (t, key) -> (forall z, sleep_ok Q z) -> preserves (on_world Q) (summarize E t key m b).
Proof.
  intros HQ HS. unfold summarize, summarize_text.
  induction (Z.to_nat m); simpl; presw_tac.
Qed.

Lemma presw_record_and_transcribe E Q filename lang :
  ins_ok Q filename -> ins_ok Q (splitext_root filename +:+ ".txt") ->
  preserves (on_world Q) (record_and_transcribe E filename lang).
Proof. intros H1 H2. unfold record_and_transcribe. presw_tac. Qed.

Lemma presw_get_openai_api_key Q p : preserves (on_world Q) (get_openai_api_key p).
Proof. unfold get_openai_api_key. presw_tac. Qed.

Lemma presw_get_google_creds E Q p :
  ins_ok Q "token.json" -> preserves (on_world Q) (get_google_creds E p).
Proof. intros H. unfold get_google_creds. presw_tac. apply presw_write_file, H. Qed.

Lemma presw_create_doc E Q title (content : text) :
  call_ok Q (DocCreate title) -> (forall id, call_ok Q (DocBatchUpdate id [InsertText 1 content])) ->
  preserves (on_world Q) (create_doc E title content).
Proof. intros H1 H2. unfold create_doc. presw_tac. Qed.

Lemma presw_cleanup_files E Q l :
  Forall (del_ok Q) l -> preserves (on_world Q) (cleanup_files E l).
Proof. induction 1 as [|f l Hf _ IH]; simpl; presw_tac; exact IH. Qed.

Lemma presw_main_except Q e : preserves (on_world Q) (main_except e).
Proof. unfold main_except. presw_tac. Qed.

Lemma presw_main_finally E Q :
  del_ok Q (recording_file E) -> del_ok Q (side_output_file E) ->
  preserves (on_world Q) (main_finally E).
Proof.
  intros H1 H2. unfold main_finally. presw_tac.
  apply presw_cleanup_files. repeat constructor; assumption.
Qed.

Lemma triple_bind {A B} P (m : M A) (k : A -> M B) Q S R :
  triple P m Q R -> (forall a, triple (Q a) (k a) S R) -> triple P (bind m k) S R.
Proof.
  intros Hm Hk w H. unfold bind. specialize (Hm w H).
  destruct (m w) as [[a|e] w']; [apply Hk|]; exact Hm.
Qed.

Lemma triple_pres {A} P (m : M A) S R :
  preserves P m -> (forall w, P w -> S w) -> (forall w, P w -> R w) ->
  triple P m (fun _ => S) R.
Proof.
  intros Hm HS HR w H. specialize (Hm w H). destruct (m w) as [[a|e] w']; simpl in *; auto.
Qed.

(** ** What a run sends and what it saves *)

Lemma no_remote_ins f : ins_ok no_remote f.
Proof. intros m l d z t H; exact H. Qed.

Lemma no_remote_del f : del_ok no_remote f.
Proof. intros m l d z H; exact H. Qed.

Lemma sent_transcript_ins t tr g : g <> t -> ins_ok (sent_transcript t tr) g.
Proof. intros Hne m l d z x (H1 & H2 & H3). split; [|split]; auto. now rewrite lookup_insert_ne. Qed.

Lemma sent_transcript_chat t tr key : chat_ok (sent_transcript t tr) (tr, key).
Proof.
  intros m l d z (H1 & H2 & H3). split; [|split]; auto.
  apply Forall_app. split; [exact H2|]. now constructor.
Qed.

Lemma sent_summary_ins t s tr v g : g <> t -> g <> s -> ins_ok (sent_summary t s tr v) g.
Proof.
  intros H1 H2 m l d z x (A & B & C & D). repeat split; auto; now rewrite lookup_insert_ne.
Qed.

Lemma sent_summary_del t s tr v g : g <> t -> g <> s -> del_ok (sent_summary t s tr v) g.
Proof.
  intros H1 H2 m l d z (A & B & C & D). repeat split; auto; now rewrite lookup_delete_ne.
Qed.

Lemma sent_summary_create t s tr v title : call_ok (sent_summary t s tr v) (DocCreate title).
Proof.
  intros m l d z (A & B & C & D). repeat split; auto.
  apply Forall_app. split; [exact D|]. constructor; [|constructor]. discriminate.
Qed.

Lemma sent_summary_batch t s tr v id : call_ok (sent_summary t s tr v) (DocBatchUpdate id [InsertText 1 v]).
Proof.
  intros m l d z (A & B & C & D). repeat split; auto.
  apply Forall_app. split; [exact D|]. constructor; [|constructor]. congruence.
Qed.

Lemma sent_as_saved_del t s g : g <> t -> g <> s -> del_ok (sent_as_saved t s) g.
Proof.
  intros H1 H2 m l d z (A & B). split.
  - eapply Forall_impl; [exact A|]. intros x Hx. simpl in Hx. now rewrite lookup_delete_ne.
  - intros Hd. destruct (B Hd) as (v & Hv & Hc). exists v. split; [|exact Hc].
    now rewrite lookup_delete_ne.
Qed.

Lemma no_remote_saved t s w : on_world no_remote w -> on_world (sent_as_saved t s) w.
Proof.
  unfold on_world, no_remote, sent_as_saved. intros [-> ->].
  split; [constructor|]. intros H; now destruct H.
Qed.

Lemma sent_transcript_saved t s tr w :
  on_world (sent_transcript t tr) w -> on_world (sent_as_saved t s) w.
Proof.
  intros (A & B & C). split.
  - eapply Forall_impl; [exact B|]. intros x Hx. simpl. now rewrite Hx.
  - intros H. now destruct (H C).
Qed.

Lemma sent_summary_saved t s tr v w :
  on_world (sent_summary t s tr v) w -> on_world (sent_as_saved t s) w.
Proof.
  intros (A & B & C & D). split.
  - eapply Forall_impl; [exact B|]. intros x Hx. simpl. now rewrite Hx.
  - intros _. now exists v.
Qed.

Lemma triple_write_transcript E t s tr :
  triple (on_world no_remote) (write_file E t tr)
    (fun _ => on_world (sent_transcript t tr)) (on_world (sent_as_saved t s)).
Proof.
  intros w [Hl Hd]. unfold write_file. destruct (open_fails E t); simpl.
  - apply no_remote_saved. now split.
  - unfold on_world, sent_transcript. simpl. rewrite lookup_insert_eq, Hl, Hd. auto.
Qed.

Lemma triple_write_summary E t s tr v :
  s <> t ->
  triple (on_world (sent_transcript t tr)) (write_file E s v)
    (fun _ => on_world (sent_summary t s tr v)) (on_world (sent_as_saved t s)).
Proof.
  intros Hne w (A & B & C). unfold write_file. destruct (open_fails E s); simpl.
  - now apply sent_transcript_saved with tr.
  - unfold on_world, sent_summary. simpl. rewrite lookup_insert_eq, lookup_insert_ne by congruence.
    rewrite C. auto.
Qed.

Lemma triple_main_body E :
  triple (on_world no_remote) (main_body E)
    (fun _ => on_world (sent_as_saved (transcription_file E) (summary_file E)))
    (on_world (sent_as_saved (transcription_file E) (summary_file E))).
Proof.
  pose proof (file_names_distinct E) as (D1 & D2 & D3 & D4 & D5 & D6 & D7 & _).
  set (T := transcription_file E) in *. set (S := summary_file E) in *.
  unfold main_body. fold T S.
  apply triple_bind with (Q := fun _ => on_world no_remote);
    [apply triple_pres; [apply presw_print | auto | apply no_remote_saved] | intros _].
  apply triple_bind with (Q := fun _ => on_world no_remote);
    [apply triple_pres;
       [apply presw_record_and_transcribe; [apply no_remote_ins | apply no_remote_ins]
       | auto | apply no_remote_saved] | intros tr].
  apply triple_bind with (Q := fun _ => on_world (sent_transcript T tr));
    [apply triple_write_transcript | intros _].
  assert (ST : forall {A} (m : M A), preserves (on_world (sent_transcript T tr)) m ->
     triple (on_world (sent_transcript T tr)) m (fun _ => on_world (sent_transcript T tr))
            (on_world (sent_as_saved T S)))
    by (intros A m Hm; apply triple_pres; [exact Hm | auto | intros; eapply sent_transcript_saved; eauto]).
  apply triple_bind with (Q := fun _ => on_world (sent_transcript T tr)); [apply ST, presw_print|intros _].
  apply triple_bind with (Q := fun _ => on_world (sent_transcript T tr)); [apply ST, presw_print|intros _].
  apply triple_bind with (Q := fun _ => on_world (sent_transcript T tr));
    [apply ST, presw_get_openai_api_key|intros key].
  apply triple_bind with (Q := fun _ => on_world (sent_transcript T tr));
    [apply ST, presw_summarize; [apply sent_transcript_chat | intros z m l d y H; exact H]
    |intros v].
  apply triple_bind with (Q := fun _ => on_world (sent_summary T S tr v));
    [apply triple_write_summary; congruence|intros _].
  apply triple_pres; [|intros; eapply sent_summary_saved; eauto ..].
  presw_tac.
  - apply presw_get_google_creds, sent_summary_ins; congruence.
  - apply presw_create_doc; [apply sent_summary_create | intros; apply sent_summary_batch].
Qed.

(** X12: in a run that starts with no chat or Google Docs calls made, every
    chat request sends the text that [transcription_<ts>.txt] holds at the
    end of the run; and if any Google Docs call was made, then
    [summary_<ts>.txt] exists at the end and every [batchUpdate] inserted
    exactly its text, at index 1. *)
Theorem main_sends_saved_texts E w :
  llm_log w = [] -> doc_log w = [] ->
  let w' := snd (main E w) in
  (forall x, In x (llm_log w') -> fs w' !! transcription_file E = Some (fst x)) /\
  (doc_log w' <> [] -> exists v, fs w' !! summary_file E = Some v /\
     forall id reqs, In (DocBatchUpdate id reqs) (doc_log w') -> reqs = [InsertText 1 v]).
Proof.
  intros Hl Hd. cbv zeta.
  pose proof (file_names_distinct E) as (D1 & D2 & D3 & D4 & _).
  assert (H : on_world (sent_as_saved (transcription_file E) (summary_file E)) (snd (main E w))).
  { rewrite main_world. apply pres_apply;
      [apply presw_main_finally; apply sent_as_saved_del; assumption|].
    unfold try_except. pose proof (triple_main_body E w (conj Hl Hd)) as Hb.
    destruct (main_body E w) as [[u|e] w1]; [exact Hb|].
    apply pres_apply; [apply presw_main_except | exact Hb]. }
  destruct H as [A B]. split.
  - intros x Hx. exact (proj1 (List.Forall_forall _ _) A x Hx).
  - intros Hne. destruct (B Hne) as (v & Hv & C). exists v. split; [exact Hv|].
    intros id reqs Hin. exact (proj1 (List.Forall_forall _ _) C _ Hin id reqs eq_refl).
Qed.

Lemma main_sends_saved_texts_witness :
  let E := demo_env (fun _ => inr [83]) (fun _ => false) in
  let w := demo_world [107] in
  (llm_log w = [] /\ doc_log w = []) /\
  (forall x, In x (llm_log (snd (main E w))) ->
     fs (snd (main E w)) !! transcription_file E = Some (fst x)).
Proof.
  cbv zeta. split; [split; reflexivity|].
  exact (proj1 (main_sends_saved_texts (demo_env (fun _ => inr [83]) (fun _ => false))
                  (demo_world [107]) eq_refl eq_refl)).
Defined.

(** X13: a run changes no file other than the audio file, whisper's side
    output, the two backups and [token.json]: in particular the key file
    and the credentials file are never modified or removed. *)
Theorem main_untouched_files E w f :
  f <> recording_file E -> f <> side_output_file E -> f <> transcription_file E ->
  f <> summary_file E -> f <> "token.json" ->
  fs (snd (main E w)) !! f = fs w !! f.
Proof.
  intros H1 H2 H3 H4 H5.
  apply (main_from_body E (holds_at f (fs w !! f)));
    [apply holds_at_remove_stable; congruence | apply holds_at_remove_stable; congruence |].
  apply pres_apply; [|reflexivity].
  apply pres_main_body; apply holds_at_write_stable; congruence.
Qed.

Lemma main_untouched_files_witness :
  let E := demo_env (fun _ => inr [83]) (fun _ => false) in
  fs (snd (main E (demo_world [107]))) !! "openai_key.txt" = Some [107].
Proof.
  cbv zeta.
  transitivity (fs (demo_world [107]) !! "openai_key.txt"); [|reflexivity].
  apply main_untouched_files; vm_compute; discriminate.
Defined.

(** ** The chat budget of a run *)

Lemma budget_pre_post L0 S0 w : on_world (budget_pre L0 S0) w -> on_world (budget_post L0 S0) w.
Proof.
  intros [Hl Hz]. exists 0%nat. rewrite Hl, Hz. simpl. rewrite app_nil_r. repeat split; lia.
Qed.

Lemma triple_main_body_budget E L0 S0 :
  triple (on_world (budget_pre L0 S0)) (main_body E)
    (fun _ => on_world (budget_post L0 S0)) (on_world (budget_post L0 S0)).
Proof.
  assert (Pre : forall {A} (m : M A), preserves (on_world (budget_pre L0 S0)) m ->
     triple (on_world (budget_pre L0 S0)) m (fun _ => on_world (budget_pre L0 S0))
            (on_world (budget_post L0 S0)))
    by (intros A m Hm; apply triple_pres; [exact Hm | auto | apply budget_pre_post]).
  assert (I1 : forall f, ins_ok (budget_pre L0 S0) f) by (intros f m l d z t H; exact H).
  assert (I2 : forall f, ins_ok (budget_post L0 S0) f) by (intros f m l d z t H; exact H).
  assert (C2 : forall c, call_ok (budget_post L0 S0) c) by (intros c m l d z H; exact H).
  unfold main_body.
  apply triple_bind with (Q := fun _ => on_world (budget_pre L0 S0)); [apply Pre, presw_print|intros _].
  apply triple_bind with (Q := fun _ => on_world (budget_pre L0 S0));
    [apply Pre, presw_record_and_transcribe; apply I1|intros tr].
  apply triple_bind with (Q := fun _ => on_world (budget_pre L0 S0));
    [apply Pre, presw_write_file, I1|intros _].
  apply triple_bind with (Q := fun _ => on_world (budget_pre L0 S0)); [apply Pre, presw_print|intros _].
  apply triple_bind with (Q := fun _ => on_world (budget_pre L0 S0)); [apply Pre, presw_print|intros _].
  apply triple_bind with (Q := fun _ => on_world (budget_pre L0 S0));
    [apply Pre, presw_get_openai_api_key|intros key].
  apply triple_bind with (Q := fun _ => on_world (budget_post L0 S0)).
  - intros w [Hl Hz]. unfold summarize, summarize_text.
    destruct (summarize_go_trace (llm_reply E) tr key (Z.to_nat 5) 2 w) as (k & Hk & Hl' & Hs').
    destruct (summarize_go (llm_reply E) tr key (Z.to_nat 5) 2 w) as [[v|e] w']; simpl in *;
      (exists k; split; [exact Hk|]; split;
       [rewrite Hl', length_app, Hl; simpl length; rewrite ?List.repeat_length; lia
       |rewrite Hs', Hz; f_equal; apply map_ext; intros i; lia]).
  - intros v. apply triple_pres; [|auto..]. presw_tac.
    + apply presw_write_file, I2.
    + apply presw_get_google_creds, I2.
    + apply presw_create_doc; [apply C2 | intros; apply C2].
Qed.

(** X14: a run makes at most [k + 1] chat requests and sleeps exactly
    [2, 4, ..., 2k] seconds, for some [k <= 5]: at most six requests and
    at most 30 seconds of back-off in total. *)
Theorem main_chat_budget E w :
  exists k, (k <= 5)%nat /\
    (length (llm_log (snd (main E w))) <= length (llm_log w) + S k)%nat /\
    sleeps (snd (main E w)) = sleeps w ++ map (fun i => 2 * Z.of_nat (S i)) (seq 0 k).
Proof.
  assert (H : on_world (budget_post (llm_log w) (sleeps w)) (snd (main E w))).
  { rewrite main_world. apply pres_apply;
      [apply presw_main_finally; intros m l d z H; exact H|].
    unfold try_except.
    pose proof (triple_main_body_budget E (llm_log w) (sleeps w) w (conj eq_refl eq_refl)) as Hb.
    destruct (main_body E w) as [[u|e] w1]; [exact Hb|].
    apply pres_apply; [apply presw_main_except | exact Hb]. }
  exact H.
Qed.

(** ** A run without the OpenAI key file *)

Lemma triple_false {A} (m : M A) Q R : triple (fun _ => False) m Q R.
Proof. intros w []. Qed.

Lemma key_absent_ins key s L0 D0 v0 f :
  f <> key -> f <> s -> ins_ok (key_absent key s L0 D0 v0) f.
Proof. intros H1 H2 m l d z t (A & B & C & D). repeat split; auto; now rewrite lookup_insert_ne. Qed.

Lemma key_absent_del key s L0 D0 v0 f : f <> s -> del_ok (key_absent key s L0 D0 v0) f.
Proof.
  intros H2 m l d z (A & B & C & D). repeat split; auto; [|now rewrite lookup_delete_ne].
  destruct (decide (f = key)) as [->|Hne]; [apply lookup_delete_eq|now rewrite lookup_delete_ne].
Qed.

Lemma triple_key_absent key s L0 D0 v0 :
  triple (on_world (key_absent key s L0 D0 v0)) (get_openai_api_key key)
    (fun _ _ => False) (on_world (key_absent key s L0 D0 v0)).
Proof.
  intros w H. pose proof (presw_get_openai_api_key (key_absent key s L0 D0 v0) key w H) as Hp.
  destruct H as (A & _).
  unfold get_openai_api_key, bind, exists_file in *. rewrite A in *. simpl in *. exact Hp.
Qed.

(** X15: when the OpenAI key file is missing at the start (and is none of
    the files the run writes before reading it), the run makes no chat
    request and no Google Docs call, and leaves [summary_<ts>.txt] as it
    was. *)
Theorem main_missing_key E w :
  fs w !! openai_key_file E = None ->
  openai_key_file E <> recording_file E -> openai_key_file E <> side_output_file E ->
  openai_key_file E <> transcription_file E ->
  llm_log (snd (main E w)) = llm_log w /\ doc_log (snd (main E w)) = doc_log w /\
  fs (snd (main E w)) !! summary_file E = fs w !! summary_file E.
Proof.
  intros Hk N1 N2 N3.
  pose proof (file_names_distinct E) as (D1 & D2 & D3 & D4 & D5 & D6 & D7 & _).
  set (P := key_absent (openai_key_file E) (summary_file E) (llm_log w) (doc_log w)
                       (fs w !! summary_file E)).
  assert (Pre : forall {A} (m : M A), preserves (on_world P) m ->
     triple (on_world P) m (fun _ => on_world P) (on_world P))
    by (intros A m Hm; apply triple_pres; auto).
  assert (Hb : triple (on_world P) (main_body E) (fun _ => on_world P) (on_world P)).
  { unfold main_body.
    apply triple_bind with (Q := fun _ => on_world P); [apply Pre, presw_print|intros _].
    apply triple_bind with (Q := fun _ => on_world P);
      [apply Pre, presw_record_and_transcribe; apply key_absent_ins;
       unfold side_output_file in *; congruence|intros tr].
    apply triple_bind with (Q := fun _ => on_world P);
      [apply Pre, presw_write_file, key_absent_ins; congruence|intros _].
    apply triple_bind with (Q := fun _ => on_world P); [apply Pre, presw_print|intros _].
    apply triple_bind with (Q := fun _ => on_world P); [apply Pre, presw_print|intros _].
    apply triple_bind with (Q := fun _ _ => False); [apply triple_key_absent|intros key].
    apply triple_false. }
  assert (H : on_world P (snd (main E w))).
  { rewrite main_world. apply pres_apply;
      [apply presw_main_finally; apply key_absent_del; congruence|].
    unfold try_except. pose proof (Hb w (conj Hk (conj eq_refl (conj eq_refl eq_refl)))) as Hw.
    destruct (main_body E w) as [[u|e] w1]; [exact Hw|].
    apply pres_apply; [apply presw_main_except | exact Hw]. }
  destruct H as (_ & A & B & C). auto.
Qed.

Lemma main_missing_key_witness :
  let E := demo_env (fun _ => inr [83]) (fun _ => false) in
  llm_log (snd (main E empty_world)) = [].
Proof.
  cbv zeta.
  exact (proj1 (main_missing_key (demo_env (fun _ => inr [83]) (fun _ => false)) empty_world
                  eq_refl ltac:(vm_compute; discriminate) ltac:(vm_compute; discriminate)
                  ltac:(vm_compute; discriminate))).
Defined.

(** ** Text-mode reads of the key file *)

Lemma translate_newlines_no_cr (s : text) : ~ In 13 (translate_newlines s).
Proof.
  revert s. fix IH 1. intros [|c r]; simpl; [intros []|].
  destruct (c =? 13) eqn:Hc.
  - destruct r as [|d r'] eqn:Hr; cbv beta iota.
    + intros [H|[]]; discriminate.
    + destruct (d =? 10); intros [H|H]; try discriminate.
      * exact (IH r' H).
      * rewrite <- Hr in H. exact (IH r H).
  - intros [H|H]; [subst c; discriminate|exact (IH r H)].
Qed.

Lemma lstrip_in (s : text) x : In x (lstrip s) -> In x s.
Proof.
  destruct (lstrip_suffix s) as [pre Hpre]. intros H.
  rewrite Hpre. apply in_or_app. now right.
Qed.

Lemma py_strip_in (s : text) x : In x (py_strip s) -> In x s.
Proof.
  unfold py_strip. intros H.
  apply lstrip_in. apply in_rev. apply lstrip_in. apply in_rev. exact H.
Qed.

(** X16: a key returned by [get_openai_api_key] never contains a carriage
    return: the text-mode read turns every CR of the file into LF, and
    [str.strip()] only removes characters. *)
Theorem get_openai_api_key_no_cr (p : string) (w w' : world) (k : text) :
  get_openai_api_key p w = (Ok k, w') -> ~ In 13 k.
Proof.
  unfold get_openai_api_key, bind, exists_file, try_except, read_file.
  destruct (fs w !! p) as [c|] eqn:Hp; simpl; [|discriminate].
  rewrite Hp; simpl.
  destruct (py_strip (translate_newlines c)) as [|y l] eqn:Hs; simpl; [discriminate|].
  intros H; injection H as <- _. rewrite <- Hs. intros Hin.
  exact (translate_newlines_no_cr c (py_strip_in _ _ Hin)).
Qed.

Lemma get_openai_api_key_no_cr_witness :
  get_openai_api_key "k" {| fs := <["k" := [107; 13; 107; 13; 10]]> ∅; fs_log := []; out := [];
                            llm_log := []; sleeps := []; doc_log := [] |} =
    (Ok [107; 10; 107], {| fs := <["k" := [107; 13; 107; 13; 10]]> ∅; fs_log := []; out := [];
                           llm_log := []; sleeps := []; doc_log := [] |}) /\
  ~ In 13 [107; 10; 107].
Proof.
  split; [reflexivity|].
  refine (get_openai_api_key_no_cr "k"
            {| fs := <["k" := [107; 13; 107; 13; 10]]> ∅; fs_log := []; out := [];
               llm_log := []; sleeps := []; doc_log := [] |}
            {| fs := <["k" := [107; 13; 107; 13; 10]]> ∅; fs_log := []; out := [];
               llm_log := []; sleeps := []; doc_log := [] |}
            [107; 10; 107] _).
  reflexivity.
Defined.
